(** * SimuladorMQTT: the per-device process simulation of [sim_soia_hivemq.py]

    A shallow embedding of [DeviceState.__init__] and of the loop of [run()]
    (the body run for one device in one tick, the pass over all the devices,
    the successive passes), followed by the properties of the doser state
    machine, the dosing model, the tank model and the analog signals.  Line
    numbers are those of [src/sim_soia_hivemq.py].

    Numbers.  Python [int] is [Z].  Python [float] is modelled by the exact
    rationals [Q]: every arithmetic operation is the exact one, so the
    rounding error of binary64 is outside this model; comparisons are the
    exact comparisons.  A float division by zero raises [ZeroDivisionError]
    in Python; here it yields [None].

    Effects.  [random.random()] draws are inputs ([Draws]); the wall clock is
    an input (the timestamp [ts] and the test [now >= next_stat_time]);
    [client.publish] appends a [Msg] to the list of messages of the tick.
    The connection to the broker is not modelled, and of the sleep between
    two passes only its duration is.

    Also embedded: [Config.devices] (the parsing of [DEVICES]), the
    dictionary [states], and the iteration of [while True] with its clock
    readings, refresh timer and sleep duration.  Left out: [iso_utc],
    [make_client], the JSON text [publish_json] sends and the reading of the
    environment. *)

From Stdlib Require Import QArith Qround Qabs ZArith Ascii String List Bool Lia Lqa.
Import ListNotations.
Local Open Scope Q_scope.

(* ------------------------------------------------------------------ *)
(** ** The Python primitives the loop body uses *)

Module Py.

(** [x < y] on floats. *)
Definition lt (x y : Q) : bool := negb (Qle_bool y x).

(** [x <= y] on floats. *)
Definition le (x y : Q) : bool := Qle_bool x y.

(** [x == y] on floats (value equality). *)
Definition eqv (x y : Q) : bool := Qeq_bool x y.

(** [max(a, b)]: the first argument unless the second is strictly larger. *)
Definition max (a b : Q) : Q := if lt a b then b else a.

(** [min(a, b)]: the first argument unless the second is strictly smaller. *)
Definition min (a b : Q) : Q := if lt b a then b else a.

(** [x / y]: raises [ZeroDivisionError] when [y == 0]. *)
Definition div (x y : Q) : option Q :=
  if eqv y 0 then None else Some (x / y).

(** [round(x)]: the nearest integer, a tie going to the even one. *)
Definition round (x : Q) : Z :=
  let f := Qfloor x in
  match Qcompare (x - inject_Z f) (1 # 2) with
  | Lt => f
  | Gt => (f + 1)%Z
  | Eq => if Z.even f then f else (f + 1)%Z
  end.

(** [round(x, n)]: [x] rounded to [n] decimals, ties to even. *)
Definition round_nd (x : Q) (n : nat) : Q :=
  inject_Z (round (x * inject_Z (10 ^ Z.of_nat n))) / inject_Z (10 ^ Z.of_nat n).

(** [random.uniform(a, b)] is [a + (b - a) * random.random()]. *)
Definition uniform (a b u : Q) : Q := a + (b - a) * u.

End Py.

(** A result of [random.random()]: a number of [[0, 1)]. *)
Definition unit_draw (u : Q) : Prop := 0 <= u /\ u < 1.

(* ------------------------------------------------------------------ *)
(** ** Config and DeviceState *)

(** [Config]: the fields the simulation reads.  The connection fields (host,
    port, user, pwd, tls) and [devices_csv] only feed [make_client] and the
    dictionary of devices. *)
Record Config : Type := mkConfig {
  product : string;
  period_s : Q;
  qos : Z;
  retain_stat : bool;
  q_span_m3min : Q;
  C_mgm3 : Q;
  rho_g_cm3 : Q;
  E_A_cm3 : Q;
  E_B_cm3 : Q;
  tank_liters : Q;
  max_spm : Q;
  di_fail_prob : Q;
  mismatch_noise_pct : Q
}.

(** [Config()] with no environment variable set. *)
Definition default_config : Config :=
  {| product := "A1B2C3"; period_s := 30; qos := 0%Z; retain_stat := true;
     q_span_m3min := 30; C_mgm3 := 250; rho_g_cm3 := 0.815;
     E_A_cm3 := 0.25; E_B_cm3 := 0.25; tank_liters := 200; max_spm := 45;
     di_fail_prob := 0.02; mismatch_noise_pct := 0.03 |}.

(** [DeviceState].  The field [phase] is drawn in [__init__] and never read
    again; it is not part of the model. *)
Record DeviceState : Type := mkState {
  device_id : string;
  active : string;
  no_detect_count : Z;
  pulses_total_A : Z;
  pulses_total_B : Z;
  tank_l : Q;
  flow_volts : Q;
  level_volts : Q
}.

(** [DeviceState.__init__(device_id, cfg)]; [u0] is the draw of
    [random.uniform(-0.2, 0.2)]. *)
Definition init_state (dev : string) (cfg : Config) (u0 : Q) : DeviceState :=
  {| device_id := dev;
     active := "A";
     no_detect_count := 0;
     pulses_total_A := 0;
     pulses_total_B := 0;
     tank_l := tank_liters cfg;
     flow_volts := 2.8 + Py.uniform (-0.2) 0.2 u0;
     level_volts := 4.6 |}.

(* ------------------------------------------------------------------ *)
(** ** Helpers of the module *)

(** [clamp(v, a, b) = max(a, min(b, v))]. *)
Definition clamp (v a b : Q) : Q := Py.max a (Py.min b v).

(** [map_flow_volts_to_q_m3min]: 1-5 V to 0..q_span. *)
Definition map_flow_volts_to_q_m3min (volts : Q) (cfg : Config) : Q :=
  Py.max 0 (((volts - 1) / 4) * q_span_m3min cfg).

(** The JSON objects handed to [publish_json], one constructor per topic. *)
Inductive Payload : Type :=
| FlowMsg (ts : string) (volts Q_m3min Q_m3h : Q)
| InjSensorMsg (ts : string) (state : string)
| PulseMsg (ts : string) (pulses_total pulses_period : Z)
           (rate_per_min embolada_cm3 : Q)
| DosingCheckMsg (ts : string) (spm_teo spm_real mismatch_pct : Q)
                 (under_dosing_due_to_limit : bool)
| LevelMsg (ts : string) (volts percent tank_l : Q)
| ActiveDoserMsg (ts : string) (active : string) (reason : option string).

Record Msg : Type := mkMsg {
  topic : string;
  payload : Payload;
  msg_qos : Z;
  retain : bool
}.

(** [publish_json(client, topic, obj, qos, retain)]: the message published. *)
Definition publish_json (topic : string) (obj : Payload) (qos : Z)
    (retain : bool) : Msg :=
  mkMsg topic obj qos retain.

(* ------------------------------------------------------------------ *)
(** ** The sections of the loop body, in source order

    Only the division of line 114 can raise: every other divisor is a
    non-zero literal or is tested against zero just before ([tank_liters > 0]
    on line 183, [spm_teo == 0] on line 171), so those are written with the
    total quotient of [Q]. *)

(** Line 113: the displacement of the pump that is active at this point. *)
Definition active_E (cfg : Config) (act : string) : Q :=
  if String.eqb act "A" then E_A_cm3 cfg else E_B_cm3 cfg.

(** Line 114: the theoretical rate, strokes per minute. *)
Definition spm_teo_of (cfg : Config) (E Q_m3min : Q) : option Q :=
  if Py.le E 0 then Some 0
  else Py.div (Q_m3min * C_mgm3 cfg) (1000 * rho_g_cm3 cfg * E).

(** Line 117: the rate with the multiplicative noise. *)
Definition spm_noisy_of (cfg : Config) (spm_teo u : Q) : Q :=
  spm_teo * (1 + Py.uniform (- mismatch_noise_pct cfg) (mismatch_noise_pct cfg) u).

(** Lines 118-121: saturation at the mechanical limit; the pair is
    [(spm_real, under_limit)]. *)
Definition saturate (cfg : Config) (spm_real : Q) : Q * bool :=
  if Py.lt (max_spm cfg) spm_real then (max_spm cfg, true)
  else (spm_real, false).

(** Lines 123-124: the pulses of the period. *)
Definition pulses_of (cfg : Config) (spm_real : Q) : Z :=
  Z.max 0 (Py.round (spm_real * (period_s cfg / 60))).

(** Lines 136-139: the count of pulses without liquid detection. *)
Definition count_update (inj_fail : bool) (pulses_this_period n : Z) : Z :=
  if inj_fail || (pulses_this_period =? 0)%Z
  then (n + pulses_this_period)%Z
  else 0%Z.

Definition rotation_reason : string := "sensor_no_detection_after_5_pulses".

(** Lines 141-147: the rotation; the result is
    [(st.active, st.no_detect_count, rotated, reason)]. *)
Definition rotate (act : string) (n : Z)
    : string * Z * bool * option string :=
  if (5 <=? n)%Z
  then (if String.eqb act "A" then "B"%string else "A"%string,
        0%Z, true, Some rotation_reason)
  else (act, n, false, None).

(** Lines 150-153: the totals; the pair is
    [(st.pulses_total_A, st.pulses_total_B)]. *)
Definition add_totals (act : string) (pulses_this_period tA tB : Z) : Z * Z :=
  if String.eqb act "A" then ((tA + pulses_this_period)%Z, tB)
  else (tA, (tB + pulses_this_period)%Z).

(** Line 171: the mismatch between the real and the theoretical rate. *)
Definition mismatch_of (spm_teo spm_real : Q) : Q :=
  if Py.eqv spm_teo 0 then 0
  else Py.round_nd ((Qabs (spm_real - spm_teo) / spm_teo) * 100) 1.

(** Lines 181-182: the tank after the consumption of the period. *)
Definition tank_consume (tank : Q) (pulses_this_period : Z) (E : Q) : Q :=
  let consumed_cm3 := inject_Z pulses_this_period * E in
  Py.max 0 (tank - consumed_cm3 / 1000).

(** Line 183. *)
Definition level_pct_of (cfg : Config) (tank : Q) : Q :=
  100 * (if Py.lt 0 (tank_liters cfg) then tank / tank_liters cfg else 0).

(** Line 184. *)
Definition level_volts_of (level_pct : Q) : Q :=
  1 + 4 * clamp level_pct 0 100 / 100.

(* ------------------------------------------------------------------ *)
(** ** One tick of one device: the body of [for dev, st in states.items()] *)

(** The three [random.random()] results the body consumes, in order: inside
    [random.uniform(-0.06, 0.06)], inside the noise [random.uniform], and the
    roll of the injection sensor. *)
Record Draws : Type := mkDraws {
  u_flow : Q;
  u_noise : Q;
  u_di : Q
}.

Definition unit_draws (d : Draws) : Prop :=
  unit_draw (u_flow d) /\ unit_draw (u_noise d) /\ unit_draw (u_di d).

(** The local variables of the body when it ends.  Two of them are read at
    an earlier point, because the body overwrites them afterwards:
    [l_spm_noisy] is [spm_real] as line 117 assigns it (before the
    saturation), and [l_count] is [st.no_detect_count] after lines 136-139
    (before the rotation). *)
Record Locals : Type := mkLocals {
  l_Q_m3min : Q;
  l_Q_m3h : Q;
  l_E : Q;
  l_spm_teo : Q;
  l_spm_noisy : Q;
  l_spm_real : Q;
  l_under_limit : bool;
  l_pulses_this_period : Z;
  l_inj_fail : bool;
  l_di_state : string;
  l_count : Z;
  l_rotated : bool;
  l_reason : option string;
  l_mismatch_pct : Q;
  l_consumed_cm3 : Q;
  l_level_pct : Q
}.

(** Lines 99-196.  [ts] is [iso_utc()], [stat_due] is the value of
    [now >= next_stat_time].  [None] is the [ZeroDivisionError] of line 114. *)
Definition tick (cfg : Config) (ts : string) (stat_due : bool) (d : Draws)
    (st : DeviceState) : option (DeviceState * Locals * list Msg) :=
  let base := (("soia/" ++ product cfg) ++ "/" ++ device_id st)%string in
  (* ------ Caudal GAS (1-5 V) ------ *)
  let flow_volts1 :=
    clamp (flow_volts st + Py.uniform (-0.06) 0.06 (u_flow d)) 1 5 in
  let Q_m3min := map_flow_volts_to_q_m3min flow_volts1 cfg in
  let Q_m3h := Q_m3min * 60 in
  let m_flow :=
    publish_json (base ++ "/tele/ai/flow")
      (FlowMsg ts (Py.round_nd flow_volts1 3) (Py.round_nd Q_m3min 3)
               (Py.round_nd Q_m3h 1))
      (qos cfg) false in
  (* ------ Pulsos dosificador activo ------ *)
  let E := active_E cfg (active st) in
  match spm_teo_of cfg E Q_m3min with
  | None => None
  | Some spm_teo =>
    let spm_noisy := spm_noisy_of cfg spm_teo (u_noise d) in
    let spm_real := fst (saturate cfg spm_noisy) in
    let under_limit := snd (saturate cfg spm_noisy) in
    let pulses_this_period := pulses_of cfg spm_real in
    (* ------ DI sensor de inyeccion ------ *)
    let inj_fail := Py.lt (u_di d) (di_fail_prob cfg) in
    let di_state := if inj_fail then "closed"%string else "open"%string in
    let m_di :=
      publish_json (base ++ "/tele/di/inj_sensor") (InjSensorMsg ts di_state)
        (qos cfg) false in
    let count := count_update inj_fail pulses_this_period (no_detect_count st) in
    let '(active1, count1, rotated, reason) := rotate (active st) count in
    (* Totales y publicacion de pulsos A/B *)
    let '(total_A, total_B) :=
      add_totals active1 pulses_this_period
        (pulses_total_A st) (pulses_total_B st) in
    let m_A :=
      publish_json (base ++ "/tele/pulse/doserA")
        (PulseMsg ts total_A
           (if String.eqb active1 "A" then pulses_this_period else 0%Z)
           (Py.round_nd (if String.eqb active1 "A" then spm_real else 0) 3)
           (E_A_cm3 cfg))
        (qos cfg) false in
    let m_B :=
      publish_json (base ++ "/tele/pulse/doserB")
        (PulseMsg ts total_B
           (if String.eqb active1 "B" then pulses_this_period else 0%Z)
           (Py.round_nd (if String.eqb active1 "B" then spm_real else 0) 3)
           (E_B_cm3 cfg))
        (qos cfg) false in
    (* ------ QA: coherencia y limite ------ *)
    let mismatch_pct := mismatch_of spm_teo spm_real in
    let m_qa :=
      publish_json (base ++ "/tele/qa/dosing_check")
        (DosingCheckMsg ts (Py.round_nd spm_teo 3) (Py.round_nd spm_real 3)
           mismatch_pct under_limit)
        (qos cfg) false in
    (* ------ Nivel de tanque (1-5 V) estimado por consumo ------ *)
    let consumed_cm3 := inject_Z pulses_this_period * E in
    let tank1 := tank_consume (tank_l st) pulses_this_period E in
    let level_pct := level_pct_of cfg tank1 in
    let level_volts1 := level_volts_of level_pct in
    let m_level :=
      publish_json (base ++ "/tele/ai/level")
        (LevelMsg ts (Py.round_nd level_volts1 3) (Py.round_nd level_pct 2)
           (Py.round_nd tank1 3))
        (qos cfg) false in
    (* ------ Estado activo/rotacion ------ *)
    let m_stat :=
      if rotated || stat_due
      then [publish_json (base ++ "/stat/active_doser")
              (ActiveDoserMsg ts active1 reason) (qos cfg) (retain_stat cfg)]
      else [] in
    Some
      ({| device_id := device_id st;
          active := active1;
          no_detect_count := count1;
          pulses_total_A := total_A;
          pulses_total_B := total_B;
          tank_l := tank1;
          flow_volts := flow_volts1;
          level_volts := level_volts1 |},
       {| l_Q_m3min := Q_m3min; l_Q_m3h := Q_m3h; l_E := E;
          l_spm_teo := spm_teo; l_spm_noisy := spm_noisy;
          l_spm_real := spm_real; l_under_limit := under_limit;
          l_pulses_this_period := pulses_this_period;
          l_inj_fail := inj_fail; l_di_state := di_state; l_count := count;
          l_rotated := rotated; l_reason := reason;
          l_mismatch_pct := mismatch_pct; l_consumed_cm3 := consumed_cm3;
          l_level_pct := level_pct |},
       [m_flow; m_di; m_A; m_B; m_qa; m_level] ++ m_stat)
  end.

(** What one iteration of [while True] feeds to a device. *)
Record TickInput : Type := mkInput {
  in_ts : string;
  in_stat_due : bool;
  in_draws : Draws
}.

(** The successive ticks of one device; the messages are in publication
    order. *)
Fixpoint run_ticks (cfg : Config) (ins : list TickInput) (st : DeviceState)
    : option (DeviceState * list Msg) :=
  match ins with
  | [] => Some (st, [])
  | i :: rest =>
    match tick cfg (in_ts i) (in_stat_due i) (in_draws i) st with
    | None => None
    | Some (st1, _, out1) =>
      match run_ticks cfg rest st1 with
      | None => None
      | Some (st2, out2) => Some (st2, out1 ++ out2)
      end
    end
  end.

(** The states a device goes through: the one [__init__] builds, and the one
    each completed tick leaves. *)
Inductive reachable (cfg : Config) (dev : string) : DeviceState -> Prop :=
| reach_init : forall u0,
    unit_draw u0 -> reachable cfg dev (init_state dev cfg u0)
| reach_tick : forall st ts stat_due d st1 loc out,
    reachable cfg dev st ->
    unit_draws d ->
    tick cfg ts stat_due d st = Some (st1, loc, out) ->
    reachable cfg dev st1.

(* ------------------------------------------------------------------ *)
(** ** All the devices: the dictionary [states] and the loop of [run()] *)

(** The dictionary [states], as the list of its values in insertion order
    (each value carries its key, [device_id]).  The names of [cfg.devices]
    are taken distinct; a repeated name would overwrite its entry. *)
Definition Fleet : Type := list DeviceState.

(** [{dev: DeviceState(dev, cfg) for dev in cfg.devices}]; each device comes
    with the draw its [__init__] consumes. *)
Definition init_fleet (cfg : Config) (devs : list (string * Q)) : Fleet :=
  map (fun du => init_state (fst du) cfg (snd du)) devs.

(** One pass of [for dev, st in states.items()]: the devices are processed
    one after the other, each with its own clock test and draws ([inp], by
    device name) and the timestamp [ts] of the pass.  An exception in one
    device ends the pass. *)
Fixpoint loop_pass (cfg : Config) (ts : string)
    (inp : string -> bool * Draws) (fleet : Fleet)
    : option (Fleet * list Msg) :=
  match fleet with
  | [] => Some ([], [])
  | st :: rest =>
    match tick cfg ts (fst (inp (device_id st))) (snd (inp (device_id st))) st
    with
    | None => None
    | Some (st1, _, out1) =>
      match loop_pass cfg ts inp rest with
      | None => None
      | Some (rest1, out2) => Some (st1 :: rest1, out1 ++ out2)
      end
    end
  end.

(** The first iterations of [while True], one element of [passes] each. *)
Fixpoint run_loop (cfg : Config)
    (passes : list (string * (string -> bool * Draws))) (fleet : Fleet)
    : option (Fleet * list Msg) :=
  match passes with
  | [] => Some (fleet, [])
  | (ts, inp) :: more =>
    match loop_pass cfg ts inp fleet with
    | None => None
    | Some (fleet1, out1) =>
      match run_loop cfg more fleet1 with
      | None => None
      | Some (fleet2, out2) => Some (fleet2, out1 ++ out2)
      end
    end
  end.

(* ------------------------------------------------------------------ *)
(** ** What the properties speak about *)

(** The assignments of the body, as equations between the state before
    ([st]), the state after ([st1]) and the locals ([loc]). *)
Record tick_rel (cfg : Config) (d : Draws) (st st1 : DeviceState)
    (loc : Locals) : Prop := mkTickRel {
  tr_device : device_id st1 = device_id st;
  tr_flow : flow_volts st1 =
            clamp (flow_volts st + Py.uniform (-0.06) 0.06 (u_flow d)) 1 5;
  tr_Q : l_Q_m3min loc = map_flow_volts_to_q_m3min (flow_volts st1) cfg;
  tr_Qh : l_Q_m3h loc = l_Q_m3min loc * 60;
  tr_E : l_E loc = active_E cfg (active st);
  tr_teo : spm_teo_of cfg (l_E loc) (l_Q_m3min loc) = Some (l_spm_teo loc);
  tr_noisy : l_spm_noisy loc = spm_noisy_of cfg (l_spm_teo loc) (u_noise d);
  tr_real : l_spm_real loc = fst (saturate cfg (l_spm_noisy loc));
  tr_under : l_under_limit loc = snd (saturate cfg (l_spm_noisy loc));
  tr_pulses : l_pulses_this_period loc = pulses_of cfg (l_spm_real loc);
  tr_fail : l_inj_fail loc = Py.lt (u_di d) (di_fail_prob cfg);
  tr_di : l_di_state loc =
          if l_inj_fail loc then "closed"%string else "open"%string;
  tr_count : l_count loc =
             count_update (l_inj_fail loc) (l_pulses_this_period loc)
               (no_detect_count st);
  tr_rotate : rotate (active st) (l_count loc) =
              (active st1, no_detect_count st1, l_rotated loc, l_reason loc);
  tr_totals : add_totals (active st1) (l_pulses_this_period loc)
                (pulses_total_A st) (pulses_total_B st) =
              (pulses_total_A st1, pulses_total_B st1);
  tr_mismatch : l_mismatch_pct loc =
                mismatch_of (l_spm_teo loc) (l_spm_real loc);
  tr_consumed : l_consumed_cm3 loc =
                inject_Z (l_pulses_this_period loc) * l_E loc;
  tr_tank : tank_l st1 =
            tank_consume (tank_l st) (l_pulses_this_period loc) (l_E loc);
  tr_pct : l_level_pct loc = level_pct_of cfg (tank_l st1);
  tr_level : level_volts st1 = level_volts_of (l_level_pct loc)
}.

(** A state of the dictionary that its device can reach. *)
Definition device_reachable (cfg : Config) (st : DeviceState) : Prop :=
  reachable cfg (device_id st) st.

(** Exactly one of the two pumps is the active one. *)
Definition exactly_one_active (st : DeviceState) : Prop :=
  (active st = "A"%string /\ active st <> "B"%string) \/
  (active st = "B"%string /\ active st <> "A"%string).

(** The status record of a rotation: an [active_doser] object whose reason is
    [sensor_no_detection_after_5_pulses]. *)
Definition rotation_event (m : Msg) : bool :=
  match payload m with
  | ActiveDoserMsg _ _ (Some r) => String.eqb r rotation_reason
  | _ => false
  end.

(** Both analog signals are within the transducer range. *)
Definition signals_in_range (st : DeviceState) : Prop :=
  (1 <= flow_volts st /\ flow_volts st <= 5) /\
  (1 <= level_volts st /\ level_volts st <= 5).

(* ------------------------------------------------------------------ *)
(** ** Concrete configurations and devices, used to run the model *)

Definition ts0 : string := "2025-01-01T00:00:00+00:00".

(** [DeviceState("dev-001", Config())] with the draw [0.5]: 2.8 V. *)
Definition st_boot : DeviceState := init_state "dev-001" default_config 0.5.

(** Flow and noise draws in the middle, injection sensor in FAIL
    ([0.01 < di_fail_prob]). *)
Definition draws_fail : Draws := mkDraws 0.5 0.5 0.01.

(** The same with the injection sensor OK. *)
Definition draws_ok : Draws := mkDraws 0.5 0.5 0.5.

(** [Config()] with [E_B_CM3=0.5]: the two pumps differ in displacement. *)
Definition config_AB : Config :=
  {| product := "A1B2C3"; period_s := 30; qos := 0%Z; retain_stat := true;
     q_span_m3min := 30; C_mgm3 := 250; rho_g_cm3 := 0.815;
     E_A_cm3 := 0.25; E_B_cm3 := 0.5; tank_liters := 200; max_spm := 45;
     di_fail_prob := 0.02; mismatch_noise_pct := 0.03 |}.

(** [Config()] with [MAX_SPM=10]: the mechanical limit is below the rate the
    default flow asks for. *)
Definition config_slow : Config :=
  {| product := "A1B2C3"; period_s := 30; qos := 0%Z; retain_stat := true;
     q_span_m3min := 30; C_mgm3 := 250; rho_g_cm3 := 0.815;
     E_A_cm3 := 0.25; E_B_cm3 := 0.25; tank_liters := 200; max_spm := 10;
     di_fail_prob := 0.02; mismatch_noise_pct := 0.03 |}.

(** [Config()] with [E_A_CM3=-0.25]: a negative displacement. *)
Definition config_neg : Config :=
  {| product := "A1B2C3"; period_s := 30; qos := 0%Z; retain_stat := true;
     q_span_m3min := 30; C_mgm3 := 250; rho_g_cm3 := 0.815;
     E_A_cm3 := -0.25; E_B_cm3 := 0.25; tank_liters := 200; max_spm := 45;
     di_fail_prob := 0.02; mismatch_noise_pct := 0.03 |}.

(** [Config()] with [Q_SPAN_M3MIN=7]: at 2.8 V the flow is 3.15 m3/min and
    a period issues 2 pulses. *)
Definition config_trickle : Config :=
  {| product := "A1B2C3"; period_s := 30; qos := 0%Z; retain_stat := true;
     q_span_m3min := 7; C_mgm3 := 250; rho_g_cm3 := 0.815;
     E_A_cm3 := 0.25; E_B_cm3 := 0.25; tank_liters := 200; max_spm := 45;
     di_fail_prob := 0.02; mismatch_noise_pct := 0.03 |}.

(** A tick input with the sensor in FAIL and no refresh due. *)
Definition input_fail : TickInput := mkInput ts0 false draws_fail.

(** The first tick of [st_boot] with the sensor in FAIL: 8 pulses, so the
    pump rotates. *)
Definition boot_fail : DeviceState * Locals * list Msg :=
  Eval vm_compute in
    match tick default_config ts0 true draws_fail st_boot with
    | Some r => r
    | None => (st_boot, mkLocals 0 0 0 0 0 0 false 0 false "" 0 false None 0 0 0, [])
    end.

(** The first tick of [st_boot] with the sensor OK. *)
Definition boot_ok : DeviceState * Locals * list Msg :=
  Eval vm_compute in
    match tick default_config ts0 false draws_ok st_boot with
    | Some r => r
    | None => (st_boot, mkLocals 0 0 0 0 0 0 false 0 false "" 0 false None 0 0 0, [])
    end.

(** The first tick of a fresh device under [config_slow], sensor OK: the
    rate 16.56 is cut to 10. *)
Definition slow_ok : DeviceState * Locals * list Msg :=
  Eval vm_compute in
    match tick config_slow ts0 false draws_ok
            (init_state "dev-001" config_slow 0.5) with
    | Some r => r
    | None => (st_boot, mkLocals 0 0 0 0 0 0 false 0 false "" 0 false None 0 0 0, [])
    end.

(* ------------------------------------------------------------------ *)
(** ** [Config.devices]: the device names of [DEVICES]

    A string is the list of its characters, a character being a code point
    below 256. *)

Module PyStr.

(** [c.isspace()] for a code point below 256: tab to carriage return, the
    four separators 28-31, the space, NEL and the no-break space. *)
Definition is_space (c : ascii) : bool :=
  let n := nat_of_ascii c in
  ((9 <=? n)%nat && (n <=? 13)%nat) || ((28 <=? n)%nat && (n <=? 32)%nat)
  || (n =? 133)%nat || (n =? 160)%nat.

(** [s.lstrip()]. *)
Fixpoint lstrip (s : string) : string :=
  match s with
  | EmptyString => EmptyString
  | String c rest => if is_space c then lstrip rest else s
  end.

(** [s.rstrip()]. *)
Fixpoint rstrip (s : string) : string :=
  match s with
  | EmptyString => EmptyString
  | String c rest =>
    match rstrip rest with
    | EmptyString => if is_space c then EmptyString else String c EmptyString
    | kept => String c kept
    end
  end.

(** [s.strip()]. *)
Definition strip (s : string) : string := rstrip (lstrip s).

(** [s.split(sep)] for a one-character separator: never the empty list. *)
Fixpoint split (sep : ascii) (s : string) : list string :=
  match s with
  | EmptyString => [EmptyString]
  | String c rest =>
    if Ascii.eqb c sep then EmptyString :: split sep rest
    else match split sep rest with
         | piece :: pieces => String c piece :: pieces
         | [] => [String c EmptyString]
         end
  end.

(** The truth value of a string: it is not empty. *)
Definition truthy (s : string) : bool :=
  match s with EmptyString => false | String _ _ => true end.

(** [c in s] for a character [c]. *)
Fixpoint contains (c : ascii) (s : string) : bool :=
  match s with
  | EmptyString => false
  | String x rest => Ascii.eqb x c || contains c rest
  end.

End PyStr.

(** [Config.devices], lines 47-49, as a function of the field [devices_csv]:
    [[d.strip() for d in self.devices_csv.split(",") if d.strip()]]. *)
Definition devices (devices_csv : string) : list string :=
  map PyStr.strip
    (filter (fun d => PyStr.truthy (PyStr.strip d))
       (PyStr.split "," devices_csv)).

(** What [lstrip] returns does not start with a space. *)
Definition starts_clean (s : string) : Prop :=
  match s with
  | EmptyString => True
  | String c _ => PyStr.is_space c = false
  end.

(** A name [devices] can return as it is: not empty, nothing to strip, no
    comma. *)
Definition clean_name (d : string) : Prop :=
  d <> EmptyString /\ PyStr.strip d = d /\ PyStr.contains "," d = false.

(* ------------------------------------------------------------------ *)
(** ** The dictionary [states] of line 87 *)

(** A dictionary from device names to states, in insertion order. *)
Definition States : Type := list (string * DeviceState).

(** [d[k] = v]: an existing key keeps its place and takes the new value, a
    new key goes last. *)
Fixpoint dict_set (k : string) (v : DeviceState) (d : States) : States :=
  match d with
  | [] => [(k, v)]
  | (k1, v1) :: rest =>
    if String.eqb k1 k then (k1, v) :: rest
    else (k1, v1) :: dict_set k v rest
  end.

(** [{dev: DeviceState(dev, cfg) for dev in cfg.devices}]: the names in
    order, each with the draw its [__init__] consumes. *)
Definition build_states (cfg : Config) (devs : list (string * Q)) : States :=
  fold_left (fun d du => dict_set (fst du) (init_state (fst du) cfg (snd du)) d)
    devs [].

(* ------------------------------------------------------------------ *)
(** ** One iteration of [while True], with its clock *)

(** What one iteration reads from outside: [time.time()] on line 95, the
    timestamp of line 96, [time.time()] on line 192 (once per device), the
    two readings of lines 199 and 200, the reading of line 203, and the
    draws of each device. *)
Record PassClock : Type := mkPassClock {
  pc_t0 : Q;
  pc_ts : string;
  pc_now : string -> Q;
  pc_test : Q;
  pc_set : Q;
  pc_end : Q;
  pc_draws : string -> Draws
}.

(** The variables of [run()] that live across iterations. *)
Record LoopState : Type := mkLoopState {
  ls_fleet : Fleet;
  ls_next_stat_time : Q
}.

(** Lines 199-200: the refresh timer after a pass. *)
Definition next_stat_time_after (next_stat_time test_reading set_reading : Q)
    : Q :=
  if Py.le 300 (test_reading - next_stat_time) then set_reading
  else next_stat_time.

(** Lines 203-206: the duration handed to [time.sleep], [None] when the loop
    does not sleep. *)
Definition sleep_of (cfg : Config) (t0 t_end : Q) : option Q :=
  let dt := t_end - t0 in
  let sleep_s := Py.max 0 (period_s cfg - dt) in
  if Py.lt 0 sleep_s then Some sleep_s else None.

(** Lines 95-206: one iteration; the result is the state for the next one,
    the messages published and the sleep. *)
Definition iteration (cfg : Config) (pc : PassClock) (s : LoopState)
    : option (LoopState * list Msg * option Q) :=
  match
    loop_pass cfg (pc_ts pc)
      (fun dev => (Py.le (ls_next_stat_time s) (pc_now pc dev), pc_draws pc dev))
      (ls_fleet s)
  with
  | None => None
  | Some (fleet1, out) =>
    Some ({| ls_fleet := fleet1;
             ls_next_stat_time :=
               next_stat_time_after (ls_next_stat_time s)
                 (pc_test pc) (pc_set pc) |},
          out, sleep_of cfg (pc_t0 pc) (pc_end pc))
  end.

(** The first iterations of [run()]; line 90 starts the timer at 0. *)
Fixpoint iterations (cfg : Config) (pcs : list PassClock) (s : LoopState)
    : option (LoopState * list Msg) :=
  match pcs with
  | [] => Some (s, [])
  | pc :: more =>
    match iteration cfg pc s with
    | None => None
    | Some (s1, out1, _) =>
      match iterations cfg more s1 with
      | None => None
      | Some (s2, out2) => Some (s2, out1 ++ out2)
      end
    end
  end.

(** The clock of an iteration does not run backwards, from [lo] on. *)
Definition clock_ok (lo : Q) (pc : PassClock) : Prop :=
  lo <= pc_t0 pc /\
  (forall dev, pc_t0 pc <= pc_now pc dev /\ pc_now pc dev <= pc_test pc) /\
  pc_test pc <= pc_set pc /\ pc_set pc <= pc_end pc.

(** The clocks of successive iterations do not run backwards. *)
Fixpoint clocks_ok (lo : Q) (pcs : list PassClock) : Prop :=
  match pcs with
  | [] => True
  | pc :: more => clock_ok lo pc /\ clocks_ok (pc_end pc) more
  end.

(** The pulses the pulse records of a list of messages report, summed. *)
Fixpoint pulses_reported (out : list Msg) : Z :=
  match out with
  | [] => 0%Z
  | m :: rest =>
    match payload m with
    | PulseMsg _ _ pulses_period _ _ => (pulses_period + pulses_reported rest)%Z
    | _ => pulses_reported rest
    end
  end.

(* ------------------------------------------------------------------ *)
(** ** More concrete configurations and ticks *)

(** [Config()] with [Q_SPAN_M3MIN=0]: no gas flow at any voltage. *)
Definition config_still : Config :=
  {| product := "A1B2C3"; period_s := 30; qos := 0%Z; retain_stat := true;
     q_span_m3min := 0; C_mgm3 := 250; rho_g_cm3 := 0.815;
     E_A_cm3 := 0.25; E_B_cm3 := 0.25; tank_liters := 200; max_spm := 45;
     di_fail_prob := 0.02; mismatch_noise_pct := 0.03 |}.

(** The first tick of a fresh device under [config_still] with the sensor in
    FAIL: no pulse. *)
Definition still_fail : DeviceState * Locals * list Msg :=
  Eval vm_compute in
    match tick config_still ts0 false draws_fail
            (init_state "dev-001" config_still 0.5) with
    | Some r => r
    | None => (st_boot, mkLocals 0 0 0 0 0 0 false 0 false "" 0 false None 0 0 0, [])
    end.

(** The clock of an iteration that starts at [t]: the device is read one
    second later, the timer two seconds later, the iteration ends after
    three; sensor OK. *)
Definition clock_at (t : Q) : PassClock :=
  mkPassClock t ts0 (fun _ => t + 1) (t + 2) (t + 2) (t + 3) (fun _ => draws_ok).




(* ------------------------------------------------------------------ *)
(** ** Facts about the Python primitives *)

Lemma py_lt_true (x y : Q) : Py.lt x y = true <-> x < y.
Proof.
  unfold Py.lt. rewrite negb_true_iff, <- not_true_iff_false, Qle_bool_iff.
  split; [apply Qnot_le_lt | apply Qlt_not_le].
Qed.

Lemma py_lt_false (x y : Q) : Py.lt x y = false <-> y <= x.
Proof.
  unfold Py.lt. rewrite negb_false_iff. apply Qle_bool_iff.
Qed.

Lemma py_le_true (x y : Q) : Py.le x y = true <-> x <= y.
Proof. apply Qle_bool_iff. Qed.

Lemma py_le_false (x y : Q) : Py.le x y = false <-> y < x.
Proof.
  unfold Py.le. rewrite <- not_true_iff_false, Qle_bool_iff.
  split; [apply Qnot_le_lt | apply Qlt_not_le].
Qed.

Lemma py_eqv_true (x y : Q) : Py.eqv x y = true <-> x == y.
Proof. apply Qeq_bool_iff. Qed.

Lemma py_eqv_false (x y : Q) : Py.eqv x y = false <-> ~ x == y.
Proof.
  unfold Py.eqv. rewrite <- not_true_iff_false, Qeq_bool_iff. tauto.
Qed.

(** Case analysis on a Python comparison, leaving the order fact in the
    context. *)
Ltac py_case c :=
  let H := fresh "Hc" in
  destruct c eqn:H;
  [ first [ apply py_lt_true in H | apply py_le_true in H
          | apply py_eqv_true in H ]
  | first [ apply py_lt_false in H | apply py_le_false in H
          | apply py_eqv_false in H ] ].

Lemma py_max_lower (a b : Q) : a <= Py.max a b.
Proof. unfold Py.max. py_case (Py.lt a b); lra. Qed.

Lemma py_max_upper (a b c : Q) : a <= c -> b <= c -> Py.max a b <= c.
Proof. unfold Py.max. intros; py_case (Py.lt a b); lra. Qed.

Lemma py_max_0_nonpos (x : Q) : x <= 0 -> Py.max 0 x = 0.
Proof.
  unfold Py.max. intros Hx. py_case (Py.lt 0 x); [lra | reflexivity].
Qed.

Lemma py_max_0_pos (x : Q) : 0 < x -> Py.max 0 x = x.
Proof.
  unfold Py.max. intros Hx. py_case (Py.lt 0 x); [reflexivity | lra].
Qed.

Lemma py_min_upper (b v : Q) : Py.min b v <= b.
Proof. unfold Py.min. py_case (Py.lt v b); lra. Qed.

(** [clamp] lands in the interval, whatever the value clamped. *)
Lemma clamp_range (v a b : Q) : a <= b -> a <= clamp v a b /\ clamp v a b <= b.
Proof.
  intros Hab. unfold clamp. split.
  - apply py_max_lower.
  - apply py_max_upper; [exact Hab | apply py_min_upper].
Qed.

(** Inside the interval [clamp] changes nothing. *)
Lemma clamp_inside (v a b : Q) : a <= v -> v <= b -> clamp v a b == v.
Proof.
  intros Ha Hb. unfold clamp, Py.max, Py.min.
  py_case (Py.lt v b).
  - py_case (Py.lt a v); lra.
  - py_case (Py.lt a b); lra.
Qed.

(** [round] does not see which fraction represents its argument. *)
Lemma py_round_comp (x y : Q) : x == y -> Py.round x = Py.round y.
Proof.
  intros Hxy. unfold Py.round.
  rewrite (Qfloor_comp x y Hxy).
  assert (Hd : x - inject_Z (Qfloor y) == y - inject_Z (Qfloor y))
    by (rewrite Hxy; reflexivity).
  rewrite (Qcompare_comp _ _ Hd (1 # 2) (1 # 2) (Qeq_refl _)).
  reflexivity.
Qed.

Lemma py_round_nd_comp (x y : Q) (n : nat) :
  x == y -> Py.round_nd x n = Py.round_nd y n.
Proof.
  intros Hxy. unfold Py.round_nd.
  rewrite (py_round_comp (x * _) (y * inject_Z (10 ^ Z.of_nat n))); [reflexivity|].
  rewrite Hxy. reflexivity.
Qed.

(** A rounded integer is within one half of its argument. *)
Lemma py_round_near (x : Q) :
  x - (1 # 2) <= inject_Z (Py.round x) /\ inject_Z (Py.round x) <= x + (1 # 2).
Proof.
  unfold Py.round.
  pose proof (Qfloor_le x) as Hlo. pose proof (Qlt_floor x) as Hhi.
  rewrite inject_Z_plus in Hhi. change (inject_Z 1) with 1 in Hhi.
  destruct (Qcompare_spec (x - inject_Z (Qfloor x)) (1 # 2)) as [He|Hl|Hg].
  - destruct (Z.even (Qfloor x));
      rewrite ?inject_Z_plus; change (inject_Z 1) with 1; lra.
  - lra.
  - rewrite inject_Z_plus. change (inject_Z 1) with 1. lra.
Qed.

Lemma py_round_nonneg (x : Q) : 0 <= x -> (0 <= Py.round x)%Z.
Proof.
  intros Hx. unfold Py.round.
  assert (Hf : (0 <= Qfloor x)%Z).
  { change 0%Z with (Qfloor 0). apply Qfloor_resp_le. exact Hx. }
  destruct (Qcompare _ _); [destruct (Z.even _)| |]; lia.
Qed.

Example py_round_ties :
  Py.round 0.5 = 0%Z /\ Py.round 1.5 = 2%Z /\ Py.round 2.5 = 2%Z /\
  Py.round (-0.5) = 0%Z /\ Py.round (-1.5) = (-2)%Z /\
  Py.round 8.28 = 8%Z /\ Py.round_nd 18.4049 1 == 18.4 /\
  Py.round_nd 0.25 1 == 0.2.
Proof. repeat split. Qed.

(** Dividing by a positive literal is multiplying by its inverse literal. *)
Lemma Qdiv_literal (x : Q) (n d : positive) :
  x / (Zpos n # d) == x * (Zpos d # n).
Proof. unfold Qdiv. reflexivity. Qed.

Lemma uniform_range (a b u : Q) :
  a <= b -> unit_draw u -> a <= Py.uniform a b u /\ Py.uniform a b u <= b.
Proof.
  intros Hab [H0 H1]. unfold Py.uniform. split; nra.
Qed.

(* ------------------------------------------------------------------ *)
(** ** What a completed tick computed *)

(** Splits a completed tick into the cases of its three pattern matches and
    names the result. *)
Ltac tick_open H :=
  unfold tick in H;
  match type of H with
  | context [spm_teo_of ?c ?e ?q] =>
    let Ht := fresh "Hteo" in
    destruct (spm_teo_of c e q) as [spm_teo|] eqn:Ht; [|discriminate H]
  end;
  match type of H with
  | context [rotate ?a ?n] =>
    let Hr := fresh "Hrot" in
    destruct (rotate a n) as [[[active1 count1] rotated] reason] eqn:Hr
  end;
  match type of H with
  | context [add_totals ?a ?p ?x ?y] =>
    let Ha := fresh "Htot" in
    destruct (add_totals a p x y) as [total_A total_B] eqn:Ha
  end;
  injection H as <- <- <-.

Lemma tick_sound cfg ts stat_due d st st1 loc out :
  tick cfg ts stat_due d st = Some (st1, loc, out) ->
  tick_rel cfg d st st1 loc.
Proof.
  intros H. tick_open H.
  constructor; cbn; try reflexivity; assumption.
Qed.

(** The messages of a completed tick: the six telemetry records, in this
    order, then the status record when the pump rotated or a refresh is due. *)
Lemma tick_messages cfg ts stat_due d st st1 loc out :
  tick cfg ts stat_due d st = Some (st1, loc, out) ->
  let base := (("soia/" ++ product cfg) ++ "/" ++ device_id st)%string in
  let on (p : string) (x : Q) := if String.eqb (active st1) p then x else 0 in
  let onz (p : string) (x : Z) := if String.eqb (active st1) p then x else 0%Z in
  out =
    [ publish_json (base ++ "/tele/ai/flow")
        (FlowMsg ts (Py.round_nd (flow_volts st1) 3)
           (Py.round_nd (l_Q_m3min loc) 3) (Py.round_nd (l_Q_m3h loc) 1))
        (qos cfg) false;
      publish_json (base ++ "/tele/di/inj_sensor")
        (InjSensorMsg ts (l_di_state loc)) (qos cfg) false;
      publish_json (base ++ "/tele/pulse/doserA")
        (PulseMsg ts (pulses_total_A st1)
           (onz "A"%string (l_pulses_this_period loc))
           (Py.round_nd (on "A"%string (l_spm_real loc)) 3) (E_A_cm3 cfg))
        (qos cfg) false;
      publish_json (base ++ "/tele/pulse/doserB")
        (PulseMsg ts (pulses_total_B st1)
           (onz "B"%string (l_pulses_this_period loc))
           (Py.round_nd (on "B"%string (l_spm_real loc)) 3) (E_B_cm3 cfg))
        (qos cfg) false;
      publish_json (base ++ "/tele/qa/dosing_check")
        (DosingCheckMsg ts (Py.round_nd (l_spm_teo loc) 3)
           (Py.round_nd (l_spm_real loc) 3) (l_mismatch_pct loc)
           (l_under_limit loc))
        (qos cfg) false;
      publish_json (base ++ "/tele/ai/level")
        (LevelMsg ts (Py.round_nd (level_volts st1) 3)
           (Py.round_nd (l_level_pct loc) 2) (Py.round_nd (tank_l st1) 3))
        (qos cfg) false ]
    ++ (if l_rotated loc || stat_due
        then [publish_json (base ++ "/stat/active_doser")
                (ActiveDoserMsg ts (active st1) (l_reason loc))
                (qos cfg) (retain_stat cfg)]
        else []).
Proof.
  intros H. tick_open H. cbn. reflexivity.
Qed.

(** The tick completes exactly when line 114 does not divide by zero. *)
Lemma tick_completes cfg ts stat_due d st :
  (active_E cfg (active st) <= 0 \/ ~ rho_g_cm3 cfg == 0) ->
  exists st1 loc out, tick cfg ts stat_due d st = Some (st1, loc, out).
Proof.
  intros Hok. unfold tick.
  assert (Ht : exists t,
    spm_teo_of cfg (active_E cfg (active st))
      (map_flow_volts_to_q_m3min
         (clamp (flow_volts st + Py.uniform (-0.06) 0.06 (u_flow d)) 1 5) cfg)
    = Some t).
  { unfold spm_teo_of, Py.div.
    py_case (Py.le (active_E cfg (active st)) 0); [eauto|].
    py_case (Py.eqv (1000 * rho_g_cm3 cfg * active_E cfg (active st)) 0);
      [|eauto].
    exfalso. destruct Hok as [Hle|Hrho]; [lra|].
    apply Hrho. apply Qmult_integral in Hc0. destruct Hc0 as [Hz|Hz]; [|lra].
    lra. }
  destruct Ht as [t ->].
  destruct (rotate _ _) as [[[a c] r] rs].
  destruct (add_totals _ _ _ _) as [tA tB].
  eauto.
Qed.

Lemma tick_raises cfg ts stat_due d st :
  0 < active_E cfg (active st) -> rho_g_cm3 cfg == 0 ->
  tick cfg ts stat_due d st = None.
Proof.
  intros HE Hrho. unfold tick, spm_teo_of, Py.div.
  py_case (Py.le (active_E cfg (active st)) 0); [lra|].
  py_case (Py.eqv (1000 * rho_g_cm3 cfg * active_E cfg (active st)) 0);
    [reflexivity|].
  exfalso. apply Hc0. rewrite Hrho. ring.
Qed.

(* ------------------------------------------------------------------ *)
(** ** The doser rotation state machine *)

Lemma pulses_of_nonneg cfg x : (0 <= pulses_of cfg x)%Z.
Proof. unfold pulses_of. apply Z.le_max_l. Qed.

Lemma count_update_fail_or_idle (f : bool) (p n : Z) :
  f = true \/ p = 0%Z -> count_update f p n = (n + p)%Z.
Proof.
  intros [-> | ->]; unfold count_update; [reflexivity|].
  rewrite Z.eqb_refl, orb_true_r. reflexivity.
Qed.


Lemma count_update_nonneg (f : bool) (p n : Z) :
  (0 <= p)%Z -> (0 <= n)%Z -> (0 <= count_update f p n)%Z.
Proof.
  intros Hp Hn. unfold count_update.
  destruct (f || (p =? 0)%Z); lia.
Qed.

Lemma rotate_fires (act : string) (n : Z) :
  (5 <= n)%Z ->
  rotate act n =
    (if String.eqb act "A" then "B"%string else "A"%string,
     0%Z, true, Some rotation_reason).
Proof.
  intros Hn. unfold rotate.
  destruct (Z.leb_spec 5 n); [reflexivity | lia].
Qed.

Lemma rotate_idle (act : string) (n : Z) :
  (n < 5)%Z -> rotate act n = (act, n, false, None).
Proof.
  intros Hn. unfold rotate.
  destruct (Z.leb_spec 5 n); [lia | reflexivity].
Qed.

(** The rotation keeps the active pump among ["A"] and ["B"], and the count it
    leaves is below five. *)
Lemma rotate_active (act : string) (n : Z) a1 c1 r rs :
  rotate act n = (a1, c1, r, rs) ->
  act = "A"%string \/ act = "B"%string ->
  a1 = "A"%string \/ a1 = "B"%string.
Proof.
  unfold rotate. intros H Hact.
  destruct (5 <=? n)%Z; injection H as <- _ _ _; [|exact Hact].
  destruct (String.eqb act "A"); auto.
Qed.

Lemma rotate_count (act : string) (n : Z) a1 c1 r rs :
  rotate act n = (a1, c1, r, rs) -> (0 <= n)%Z -> (0 <= c1 <= 4)%Z.
Proof.
  unfold rotate. intros H Hn.
  destruct (Z.leb_spec 5 n); injection H as _ <- _ _; lia.
Qed.

Lemma one_of_two_exactly (st : DeviceState) :
  active st = "A"%string \/ active st = "B"%string -> exactly_one_active st.
Proof.
  intros [H|H]; [left|right]; rewrite H; split; try reflexivity; discriminate.
Qed.

Lemma tick_active cfg ts stat_due d st st1 loc out :
  tick cfg ts stat_due d st = Some (st1, loc, out) ->
  active st = "A"%string \/ active st = "B"%string ->
  active st1 = "A"%string \/ active st1 = "B"%string.
Proof.
  intros H. pose proof (tick_sound _ _ _ _ _ _ _ _ H) as R.
  apply (rotate_active _ _ _ _ _ _ (tr_rotate _ _ _ _ _ R)).
Qed.

Lemma tick_count_nonneg cfg ts stat_due d st st1 loc out :
  tick cfg ts stat_due d st = Some (st1, loc, out) ->
  (0 <= no_detect_count st)%Z -> (0 <= l_count loc)%Z.
Proof.
  intros H Hn. pose proof (tick_sound _ _ _ _ _ _ _ _ H) as R.
  rewrite (tr_count _ _ _ _ _ R). apply count_update_nonneg; [|exact Hn].
  rewrite (tr_pulses _ _ _ _ _ R). apply pulses_of_nonneg.
Qed.

Lemma tick_count cfg ts stat_due d st st1 loc out :
  tick cfg ts stat_due d st = Some (st1, loc, out) ->
  (0 <= no_detect_count st)%Z -> (0 <= no_detect_count st1 <= 4)%Z.
Proof.
  intros H Hn. pose proof (tick_count_nonneg _ _ _ _ _ _ _ _ H Hn) as Hc.
  pose proof (tick_sound _ _ _ _ _ _ _ _ H) as R.
  apply (rotate_count _ _ _ _ _ _ (tr_rotate _ _ _ _ _ R) Hc).
Qed.

Lemma reachable_active cfg dev st :
  reachable cfg dev st -> active st = "A"%string \/ active st = "B"%string.
Proof.
  induction 1 as [u0 Hu | st ts due d st1 loc out _ IH _ Ht].
  - left. reflexivity.
  - eapply tick_active; eassumption.
Qed.

Lemma reachable_count cfg dev st :
  reachable cfg dev st -> (0 <= no_detect_count st <= 4)%Z.
Proof.
  induction 1 as [u0 Hu | st ts due d st1 loc out _ IH _ Ht].
  - cbn. lia.
  - eapply tick_count; [eassumption | lia].
Qed.

(* ------------------------------------------------------------------ *)
(** ** The concrete ticks *)

Lemma boot_fail_tick :
  tick default_config ts0 true draws_fail st_boot = Some boot_fail.
Proof. vm_compute. reflexivity. Qed.

Lemma boot_ok_tick :
  tick default_config ts0 false draws_ok st_boot = Some boot_ok.
Proof. vm_compute. reflexivity. Qed.

Lemma st_boot_reachable : reachable default_config "dev-001" st_boot.
Proof. apply reach_init. unfold unit_draw. split; lra. Qed.

Lemma draws_fail_unit : unit_draws draws_fail.
Proof. unfold unit_draws, unit_draw; cbn. repeat split; lra. Qed.

(** A tick with the sensor OK and 8 pulses: the counter is reset, nothing
    rotates, and with no refresh due only the six telemetry records go out. *)
Example boot_ok_summary :
  let '(st1, loc, out) := boot_ok in
  (active st1, no_detect_count st1, pulses_total_A st1, pulses_total_B st1)
    = ("A"%string, 0%Z, 8%Z, 0%Z) /\
  (l_di_state loc, l_count loc, l_rotated loc, l_reason loc)
    = ("open"%string, 0%Z, false, None) /\
  length out = 6%nat.
Proof. repeat split. Qed.

(** The scenario of the specification: counter at 4, sensor in FAIL, 2 pulses;
    the counter becomes 6, the pump rotates and the counter is reset. *)
Example counter_four_fail_two :
  count_update true 2 4 = 6%Z /\
  rotate "A" (count_update true 2 4) = ("B"%string, 0%Z, true, Some rotation_reason).
Proof. split; reflexivity. Qed.

(** The same scenario run through the ticks: under [config_trickle] each
    period issues 2 pulses; with the sensor in FAIL the counter goes 2, 4,
    and the third tick rotates from A to B. *)
Example three_failing_ticks :
  let st0 := init_state "dev-001" config_trickle 0.5 in
  option_map (fun r => (active (fst r), no_detect_count (fst r),
                        pulses_total_A (fst r), pulses_total_B (fst r)))
    (run_ticks config_trickle [input_fail; input_fail] st0)
    = Some ("A"%string, 4%Z, 4%Z, 0%Z) /\
  option_map (fun r => (active (fst r), no_detect_count (fst r),
                        pulses_total_A (fst r), pulses_total_B (fst r)))
    (run_ticks config_trickle [input_fail; input_fail; input_fail] st0)
    = Some ("B"%string, 0%Z, 4%Z, 2%Z).
Proof. split; vm_compute; reflexivity. Qed.

(* ------------------------------------------------------------------ *)
(** ** C3: the update of the no-detection counter *)



(* ------------------------------------------------------------------ *)
(** ** C2: one active pump, and the rotation *)

(** Among the messages of a tick, the rotation events: the status record of
    a tick that rotated, and nothing else (a refresh carries no reason). *)
Lemma tick_rotation_events cfg ts stat_due d st st1 loc out :
  tick cfg ts stat_due d st = Some (st1, loc, out) ->
  filter rotation_event out =
    if l_rotated loc
    then [publish_json
            ((("soia/" ++ product cfg) ++ "/" ++ device_id st)
               ++ "/stat/active_doser")%string
            (ActiveDoserMsg ts (active st1) (Some rotation_reason))
            (qos cfg) (retain_stat cfg)]
    else [].
Proof.
  intros H. pose proof (tick_sound _ _ _ _ _ _ _ _ H) as R.
  pose proof (tr_rotate _ _ _ _ _ R) as Hrot.
  rewrite (tick_messages _ _ _ _ _ _ _ _ H), filter_app.
  cbn [filter rotation_event payload publish_json app].
  unfold rotate in Hrot.
  destruct (5 <=? l_count loc)%Z; injection Hrot as _ _ Hr Hrs;
    rewrite <- Hr, <- Hrs.
  - cbn [orb filter rotation_event payload publish_json].
    rewrite String.eqb_refl. reflexivity.
  - destruct stat_due; reflexivity.
Qed.

(** C2.  In every reachable state exactly one of the pumps A and B is active.
    On every tick from such a state, with [l_count] the counter after its
    update: when [l_count >= 5] the active pump becomes the other pump (A to
    B, B to A), the counter is reset to 0 and exactly one rotation event,
    with reason [sensor_no_detection_after_5_pulses] and the new active pump,
    is published; when [l_count < 5] the active pump and the counter are left
    as they are, no reason is set and no rotation event is published.  Either
    way exactly one pump is active afterwards. *)
Theorem rotation_state_machine cfg dev st :
  reachable cfg dev st ->
  exactly_one_active st /\
  forall ts stat_due d st1 loc out,
    tick cfg ts stat_due d st = Some (st1, loc, out) ->
    exactly_one_active st1 /\
    (l_rotated loc = true <-> (5 <= l_count loc)%Z) /\
    ((5 <= l_count loc)%Z ->
       (active st = "A"%string -> active st1 = "B"%string) /\
       (active st = "B"%string -> active st1 = "A"%string) /\
       active st1 <> active st /\
       no_detect_count st1 = 0%Z /\
       l_rotated loc = true /\
       l_reason loc = Some rotation_reason /\
       filter rotation_event out =
         [publish_json
            ((("soia/" ++ product cfg) ++ "/" ++ device_id st)
               ++ "/stat/active_doser")%string
            (ActiveDoserMsg ts (active st1) (Some rotation_reason))
            (qos cfg) (retain_stat cfg)]) /\
    ((l_count loc < 5)%Z ->
       active st1 = active st /\
       no_detect_count st1 = l_count loc /\
       l_rotated loc = false /\
       l_reason loc = None /\
       filter rotation_event out = []).
Proof.
  intros Hreach. pose proof (reachable_active _ _ _ Hreach) as Hact.
  split; [apply one_of_two_exactly; exact Hact|].
  intros ts stat_due d st1 loc out H.
  pose proof (tick_sound _ _ _ _ _ _ _ _ H) as R.
  pose proof (tick_rotation_events _ _ _ _ _ _ _ _ H) as Hev.
  pose proof (tr_rotate _ _ _ _ _ R) as Hrot.
  split; [apply one_of_two_exactly; eapply tick_active; eassumption|].
  split.
  { unfold rotate in Hrot.
    destruct (Z.leb_spec 5 (l_count loc)); injection Hrot as _ _ <- _;
      split; intros; try reflexivity; try discriminate; lia. }
  split; intros Hn.
  - rewrite rotate_fires in Hrot by exact Hn.
    injection Hrot as Ha Hc Hr Hrs.
    rewrite <- Hr in Hev. rewrite <- Ha, <- Hc, <- Hr, <- Hrs.
    split; [intros ->; reflexivity|].
    split; [intros ->; reflexivity|].
    split; [destruct Hact as [-> | ->]; discriminate|].
    repeat (split; [reflexivity|]).
    rewrite Hev, <- Ha. reflexivity.
  - rewrite rotate_idle in Hrot by exact Hn.
    injection Hrot as Ha Hc Hr Hrs.
    rewrite <- Hr in Hev. auto.
Qed.

Lemma rotation_state_machine_witness :
  reachable default_config "dev-001" st_boot /\
  tick default_config ts0 true draws_fail st_boot = Some boot_fail /\
  active st_boot = "A"%string /\
  active (fst (fst boot_fail)) = "B"%string /\
  no_detect_count (fst (fst boot_fail)) = 0%Z.
Proof.
  split; [exact st_boot_reachable|].
  split; [exact boot_fail_tick|].
  destruct (rotation_state_machine _ _ _ st_boot_reachable) as [_ Hstep].
  destruct (Hstep _ _ _ _ _ _ boot_fail_tick) as (_ & _ & Hfire & _).
  assert (Hn : (5 <= l_count (snd (fst boot_fail)))%Z) by (vm_compute; discriminate).
  destruct (Hfire Hn) as (HA & _ & _ & Hzero & _).
  split; [reflexivity|]. split; [exact (HA eq_refl) | exact Hzero].
Defined.

(* ------------------------------------------------------------------ *)
(** ** C10: the counter between ticks *)

(** C10.  In every reachable state (the one [__init__] builds and the one
    each tick leaves) the counter is between 0 and 4; and within a tick, a
    counter update that reaches 5 or more is followed by the reset to 0,
    while a smaller one is the value the tick leaves. *)
Theorem no_detect_count_range cfg dev st :
  reachable cfg dev st ->
  (0 <= no_detect_count st <= 4)%Z /\
  forall ts stat_due d st1 loc out,
    tick cfg ts stat_due d st = Some (st1, loc, out) ->
    (0 <= l_count loc)%Z /\
    ((5 <= l_count loc)%Z -> no_detect_count st1 = 0%Z) /\
    ((l_count loc < 5)%Z -> no_detect_count st1 = l_count loc) /\
    (0 <= no_detect_count st1 <= 4)%Z.
Proof.
  intros Hreach. pose proof (reachable_count _ _ _ Hreach) as Hn.
  split; [exact Hn|].
  intros ts stat_due d st1 loc out H.
  pose proof (tick_sound _ _ _ _ _ _ _ _ H) as R.
  pose proof (tr_rotate _ _ _ _ _ R) as Hrot.
  split; [eapply tick_count_nonneg; [eassumption | lia]|].
  split; [|split].
  - intros H5. rewrite rotate_fires in Hrot by exact H5. congruence.
  - intros H5. rewrite rotate_idle in Hrot by exact H5. congruence.
  - eapply tick_count; [eassumption | lia].
Qed.

Lemma no_detect_count_range_witness :
  reachable default_config "dev-001" (fst (fst boot_fail)) /\
  (0 <= no_detect_count (fst (fst boot_fail)) <= 4)%Z.
Proof.
  assert (Hr : reachable default_config "dev-001" (fst (fst boot_fail))).
  { eapply reach_tick;
      [exact st_boot_reachable | exact draws_fail_unit | exact boot_fail_tick]. }
  split; [exact Hr|].
  exact (proj1 (no_detect_count_range _ _ _ Hr)).
Defined.

(* ------------------------------------------------------------------ *)
(** ** C9: the lifetime pulse totals *)

Lemma round_nd_zero : Py.round_nd 0 3 == 0.
Proof. vm_compute. reflexivity. Qed.

Lemma tick_totals cfg ts stat_due d st st1 loc out :
  tick cfg ts stat_due d st = Some (st1, loc, out) ->
  (active st1 = "A"%string ->
     pulses_total_A st1 = (pulses_total_A st + l_pulses_this_period loc)%Z /\
     pulses_total_B st1 = pulses_total_B st) /\
  (active st1 <> "A"%string ->
     pulses_total_A st1 = pulses_total_A st /\
     pulses_total_B st1 = (pulses_total_B st + l_pulses_this_period loc)%Z).
Proof.
  intros H. pose proof (tick_sound _ _ _ _ _ _ _ _ H) as R.
  pose proof (tr_totals _ _ _ _ _ R) as Ht. unfold add_totals in Ht.
  destruct (String.eqb_spec (active st1) "A") as [Ha|Ha];
    injection Ht as <- <-; split; intros Hc; try contradiction; auto.
Qed.

Lemma tick_totals_mono cfg ts stat_due d st st1 loc out :
  tick cfg ts stat_due d st = Some (st1, loc, out) ->
  (pulses_total_A st <= pulses_total_A st1)%Z /\
  (pulses_total_B st <= pulses_total_B st1)%Z.
Proof.
  intros H. pose proof (tick_sound _ _ _ _ _ _ _ _ H) as R.
  pose proof (pulses_of_nonneg cfg (l_spm_real loc)) as Hp.
  rewrite <- (tr_pulses _ _ _ _ _ R) in Hp.
  destruct (tick_totals _ _ _ _ _ _ _ _ H) as [HA HB].
  destruct (String.eqb_spec (active st1) "A") as [Ha|Ha].
  - destruct (HA Ha) as [-> ->]. lia.
  - destruct (HB Ha) as [-> ->]. lia.
Qed.

Lemma run_ticks_totals_mono cfg ins : forall st st2 out,
  run_ticks cfg ins st = Some (st2, out) ->
  (pulses_total_A st <= pulses_total_A st2)%Z /\
  (pulses_total_B st <= pulses_total_B st2)%Z.
Proof.
  induction ins as [|i rest IH]; intros st st2 out H; cbn in H.
  - injection H as <- _. lia.
  - destruct (tick cfg (in_ts i) (in_stat_due i) (in_draws i) st)
      as [[[st1 loc1] out1]|] eqn:Ht; [|discriminate].
    destruct (run_ticks cfg rest st1) as [[st3 out3]|] eqn:Hr; [|discriminate].
    injection H as <- _.
    pose proof (tick_totals_mono _ _ _ _ _ _ _ _ Ht).
    pose proof (IH _ _ _ Hr). lia.
Qed.

(** C9.  From a reachable state: over any number of ticks neither lifetime
    total decreases; and on every tick the total of the pump that is inactive
    after the rotation is unchanged while the total of the active one grows
    by the pulses of the tick.  Both pulse records are published on every
    tick, each with its pump's lifetime total and displacement; the record of
    the inactive pump reports 0 pulses and a rate of 0, the record of the
    active pump the pulses of the tick. *)
Theorem pulse_totals_monotone cfg dev st :
  reachable cfg dev st ->
  (forall ins st2 out,
     run_ticks cfg ins st = Some (st2, out) ->
     (pulses_total_A st <= pulses_total_A st2)%Z /\
     (pulses_total_B st <= pulses_total_B st2)%Z) /\
  (forall ts stat_due d st1 loc out,
     tick cfg ts stat_due d st = Some (st1, loc, out) ->
     (active st1 = "A"%string \/ active st1 = "B"%string) /\
     (active st1 = "A"%string ->
        pulses_total_B st1 = pulses_total_B st /\
        pulses_total_A st1 =
          (pulses_total_A st + l_pulses_this_period loc)%Z) /\
     (active st1 = "B"%string ->
        pulses_total_A st1 = pulses_total_A st /\
        pulses_total_B st1 =
          (pulses_total_B st + l_pulses_this_period loc)%Z) /\
     exists pA rA pB rB,
       In (publish_json
             ((("soia/" ++ product cfg) ++ "/" ++ device_id st)
                ++ "/tele/pulse/doserA")%string
             (PulseMsg ts (pulses_total_A st1) pA rA (E_A_cm3 cfg))
             (qos cfg) false) out /\
       In (publish_json
             ((("soia/" ++ product cfg) ++ "/" ++ device_id st)
                ++ "/tele/pulse/doserB")%string
             (PulseMsg ts (pulses_total_B st1) pB rB (E_B_cm3 cfg))
             (qos cfg) false) out /\
       (active st1 = "A"%string ->
          pB = 0%Z /\ rB == 0 /\ pA = l_pulses_this_period loc) /\
       (active st1 = "B"%string ->
          pA = 0%Z /\ rA == 0 /\ pB = l_pulses_this_period loc)).
Proof.
  intros Hreach. split.
  - intros ins st2 out. apply run_ticks_totals_mono.
  - intros ts stat_due d st1 loc out H.
    pose proof (reachable_active _ _ _ Hreach) as Hact.
    pose proof (tick_active _ _ _ _ _ _ _ _ H Hact) as Hact1.
    destruct (tick_totals _ _ _ _ _ _ _ _ H) as [HA HB].
    split; [exact Hact1|].
    split; [intros Ha; destruct (HA Ha); auto|].
    split; [intros Hb; apply HB; rewrite Hb; discriminate|].
    rewrite (tick_messages _ _ _ _ _ _ _ _ H).
    do 4 eexists.
    split; [cbn [In app]; right; right; left; reflexivity|].
    split; [cbn [In app]; right; right; right; left; reflexivity|].
    split; intros ->; cbn [String.eqb Ascii.eqb Bool.eqb];
      (split; [reflexivity | split; [apply round_nd_zero | reflexivity]]).
Qed.

Lemma pulse_totals_monotone_witness :
  reachable default_config "dev-001" st_boot /\
  tick default_config ts0 true draws_fail st_boot = Some boot_fail /\
  active (fst (fst boot_fail)) = "B"%string /\
  pulses_total_A (fst (fst boot_fail)) = pulses_total_A st_boot /\
  pulses_total_B (fst (fst boot_fail)) = (pulses_total_B st_boot + 8)%Z.
Proof.
  split; [exact st_boot_reachable|].
  split; [exact boot_fail_tick|].
  split; [reflexivity|].
  destruct (pulse_totals_monotone _ _ _ st_boot_reachable) as [_ Hstep].
  destruct (Hstep _ _ _ _ _ _ boot_fail_tick) as (_ & _ & HB & _).
  exact (HB eq_refl).
Defined.

(* ------------------------------------------------------------------ *)
(** ** C1: which displacement the tank consumption uses *)

(** [E] is assigned once, on line 113, from the pump that is active when the
    tick starts; line 181 reads that same [E], whatever the rotation of lines
    143-147 did in between. *)
Lemma tick_consumption_displacement cfg ts stat_due d st st1 loc out :
  tick cfg ts stat_due d st = Some (st1, loc, out) ->
  l_consumed_cm3 loc =
    inject_Z (l_pulses_this_period loc) * active_E cfg (active st) /\
  tank_l st1 =
    tank_consume (tank_l st) (l_pulses_this_period loc)
      (active_E cfg (active st)).
Proof.
  intros H. pose proof (tick_sound _ _ _ _ _ _ _ _ H) as R.
  rewrite (tr_consumed _ _ _ _ _ R), (tr_tank _ _ _ _ _ R), (tr_E _ _ _ _ _ R).
  split; reflexivity.
Qed.

(** C1, evaluated.  With [E_A = 0.25] and [E_B = 0.5], the first tick of a
    fresh device with the sensor in FAIL issues 8 pulses and rotates from A
    to B.  The pulses are added to the total of B and reported in the record
    of B (whose displacement is 0.5), but the tank is charged 8 * 0.25 = 2
    cm3, the displacement of A, not 8 * 0.5 = 4 cm3: it goes from 200 to
    199.998 litres, not to 199.996. *)
Theorem rotation_tick_consumption :
  exists st1 loc out,
    tick config_AB ts0 true draws_fail (init_state "dev-001" config_AB 0.5)
      = Some (st1, loc, out) /\
    l_rotated loc = true /\
    active st1 = "B"%string /\
    l_pulses_this_period loc = 8%Z /\
    pulses_total_A st1 = 0%Z /\ pulses_total_B st1 = 8%Z /\
    l_consumed_cm3 loc == 8 * E_A_cm3 config_AB /\
    ~ l_consumed_cm3 loc == 8 * active_E config_AB (active st1) /\
    tank_l st1 == 199.998 /\
    ~ tank_l st1 ==
        tank_consume 200 8 (active_E config_AB (active st1)).
Proof.
  do 3 eexists. split; [vm_compute; reflexivity|].
  repeat split; try (vm_compute; reflexivity); vm_compute; discriminate.
Qed.

(* ------------------------------------------------------------------ *)
(** ** C4: the analog signals *)

(** A property every tick re-establishes, whatever the state it starts from,
    holds after any run. *)
Lemma run_ticks_invariant cfg (P : DeviceState -> Prop) :
  (forall ts stat_due d st st1 loc out,
     tick cfg ts stat_due d st = Some (st1, loc, out) -> P st -> P st1) ->
  forall ins st st2 out,
    run_ticks cfg ins st = Some (st2, out) -> P st -> P st2.
Proof.
  intros Hstep. induction ins as [|i rest IH]; intros st st2 out H HP; cbn in H.
  - injection H as <- _. exact HP.
  - destruct (tick cfg (in_ts i) (in_stat_due i) (in_draws i) st)
      as [[[st1 loc1] out1]|] eqn:Ht; [|discriminate].
    destruct (run_ticks cfg rest st1) as [[st3 out3]|] eqn:Hr; [|discriminate].
    injection H as <- _.
    eapply IH; [exact Hr|]. eapply Hstep; eassumption.
Qed.

Lemma level_volts_of_range (p : Q) :
  1 <= level_volts_of p /\ level_volts_of p <= 5.
Proof.
  unfold level_volts_of.
  assert (H100 : (0:Q) <= 100) by lra.
  destruct (clamp_range p 0 100 H100) as [Hlo Hhi].
  rewrite Qdiv_literal. split; lra.
Qed.

Lemma init_signals dev cfg u0 :
  unit_draw u0 -> signals_in_range (init_state dev cfg u0).
Proof.
  intros Hu. unfold signals_in_range, init_state; cbn.
  assert (Hab : -0.2 <= 0.2) by lra.
  destruct (uniform_range (-0.2) 0.2 u0 Hab Hu) as [Hlo Hhi].
  repeat split; lra.
Qed.

(** The tick clamps the flow signal and recomputes the level signal from a
    clamped percentage: no condition on the state before or on the draws. *)
Lemma tick_signals cfg ts stat_due d st st1 loc out :
  tick cfg ts stat_due d st = Some (st1, loc, out) -> signals_in_range st1.
Proof.
  intros H. pose proof (tick_sound _ _ _ _ _ _ _ _ H) as R.
  unfold signals_in_range.
  rewrite (tr_flow _ _ _ _ _ R), (tr_level _ _ _ _ _ R).
  split; [apply clamp_range; lra | apply level_volts_of_range].
Qed.

(** C4.  For every device, in the initial state and after every tick, the
    flow signal and the level signal are within [1, 5] volts: in every
    reachable state, and after any run of ticks from the initial state
    whatever the draws of those ticks are. *)
Theorem analog_signals_in_range cfg dev :
  (forall st, reachable cfg dev st -> signals_in_range st) /\
  (forall u0 ins st out,
     unit_draw u0 ->
     run_ticks cfg ins (init_state dev cfg u0) = Some (st, out) ->
     (1 <= flow_volts st /\ flow_volts st <= 5) /\
     (1 <= level_volts st /\ level_volts st <= 5)).
Proof.
  split.
  - intros st Hreach.
    destruct Hreach as [u0 Hu | st ts due d st1 loc out _ _ Ht].
    + apply init_signals. exact Hu.
    + eapply tick_signals. exact Ht.
  - intros u0 ins st out Hu Hrun.
    apply (run_ticks_invariant cfg signals_in_range) with (2 := Hrun).
    + intros ts due d s s1 loc o Ht _. eapply tick_signals. exact Ht.
    + apply init_signals. exact Hu.
Qed.

Lemma analog_signals_in_range_witness :
  reachable default_config "dev-001" (fst (fst boot_fail)) /\
  signals_in_range (fst (fst boot_fail)).
Proof.
  assert (Hr : reachable default_config "dev-001" (fst (fst boot_fail))).
  { eapply reach_tick;
      [exact st_boot_reachable | exact draws_fail_unit | exact boot_fail_tick]. }
  split; [exact Hr|].
  exact (proj1 (analog_signals_in_range default_config "dev-001") _ Hr).
Defined.

(* ------------------------------------------------------------------ *)
(** ** C5: the tank *)

Lemma inject_Z_nonneg (p : Z) : (0 <= p)%Z -> 0 <= inject_Z p.
Proof. intros Hp. unfold Qle; cbn. lia. Qed.

Lemma active_E_nonneg cfg act :
  0 <= E_A_cm3 cfg -> 0 <= E_B_cm3 cfg -> 0 <= active_E cfg act.
Proof. intros HA HB. unfold active_E. destruct (String.eqb act "A"); assumption. Qed.

Lemma consumed_nonneg (p : Z) (E : Q) :
  (0 <= p)%Z -> 0 <= E -> 0 <= inject_Z p * E.
Proof.
  intros Hp HE. apply Qmult_le_0_compat; [apply inject_Z_nonneg; exact Hp | exact HE].
Qed.

Lemma tank_consume_nonneg (t : Q) (p : Z) (E : Q) : 0 <= tank_consume t p E.
Proof. unfold tank_consume. apply py_max_lower. Qed.

Lemma tank_consume_le (t cap : Q) (p : Z) (E : Q) :
  0 <= cap -> t <= cap -> 0 <= inject_Z p * E -> tank_consume t p E <= cap.
Proof.
  intros Hcap Ht Hc. unfold tank_consume.
  apply py_max_upper; [exact Hcap|]. rewrite Qdiv_literal. lra.
Qed.



Lemma tick_consumed_nonneg cfg ts stat_due d st st1 loc out :
  0 <= E_A_cm3 cfg -> 0 <= E_B_cm3 cfg ->
  tick cfg ts stat_due d st = Some (st1, loc, out) ->
  0 <= inject_Z (l_pulses_this_period loc) * l_E loc.
Proof.
  intros HA HB H. pose proof (tick_sound _ _ _ _ _ _ _ _ H) as R.
  apply consumed_nonneg.
  - rewrite (tr_pulses _ _ _ _ _ R). apply pulses_of_nonneg.
  - rewrite (tr_E _ _ _ _ _ R). apply active_E_nonneg; assumption.
Qed.

Lemma reachable_tank cfg dev st :
  0 <= tank_liters cfg -> 0 <= E_A_cm3 cfg -> 0 <= E_B_cm3 cfg ->
  reachable cfg dev st -> 0 <= tank_l st /\ tank_l st <= tank_liters cfg.
Proof.
  intros Hcap HA HB.
  induction 1 as [u0 Hu | st ts due d st1 loc out _ IH _ Ht].
  - cbn. split; lra.
  - pose proof (tick_sound _ _ _ _ _ _ _ _ Ht) as R.
    rewrite (tr_tank _ _ _ _ _ R). split.
    + apply tank_consume_nonneg.
    + apply tank_consume_le; [exact Hcap | apply IH |].
      eapply tick_consumed_nonneg; eassumption.
Qed.









(* ------------------------------------------------------------------ *)
(** ** C6: the mechanical limit *)

Lemma saturate_spec cfg (x : Q) :
  (snd (saturate cfg x) = true <-> max_spm cfg < x) /\
  fst (saturate cfg x) <= max_spm cfg /\
  (max_spm cfg < x -> fst (saturate cfg x) = max_spm cfg) /\
  (x <= max_spm cfg -> fst (saturate cfg x) = x).
Proof.
  unfold saturate. py_case (Py.lt (max_spm cfg) x); cbn [fst snd].
  - repeat split; auto; intros; lra.
  - repeat split; auto; try discriminate; intros; lra.
Qed.

(** The QA record of a tick: the fifth message. *)
Lemma tick_qa_record cfg ts stat_due d st st1 loc out :
  tick cfg ts stat_due d st = Some (st1, loc, out) ->
  In (publish_json
        ((("soia/" ++ product cfg) ++ "/" ++ device_id st)
           ++ "/tele/qa/dosing_check")%string
        (DosingCheckMsg ts (Py.round_nd (l_spm_teo loc) 3)
           (Py.round_nd (l_spm_real loc) 3) (l_mismatch_pct loc)
           (l_under_limit loc))
        (qos cfg) false) out.
Proof.
  intros H. rewrite (tick_messages _ _ _ _ _ _ _ _ H).
  cbn [In app]. do 4 right. left. reflexivity.
Qed.

(** C6.  On every tick the rate before the saturation is the theoretical
    rate times [1 + noise]; [under_limit] is true exactly when that rate
    exceeds [max_spm]; the rate after the saturation is [max_spm] in that
    case and the unchanged rate otherwise, hence at most [max_spm] always;
    and the QA record carries this flag. *)
Theorem under_limit_iff_over_max cfg ts stat_due d st st1 loc out :
  tick cfg ts stat_due d st = Some (st1, loc, out) ->
  l_spm_noisy loc =
    l_spm_teo loc *
    (1 + Py.uniform (- mismatch_noise_pct cfg) (mismatch_noise_pct cfg)
           (u_noise d)) /\
  (l_under_limit loc = true <-> max_spm cfg < l_spm_noisy loc) /\
  l_spm_real loc <= max_spm cfg /\
  (l_under_limit loc = true -> l_spm_real loc = max_spm cfg) /\
  (l_under_limit loc = false -> l_spm_real loc = l_spm_noisy loc) /\
  In (publish_json
        ((("soia/" ++ product cfg) ++ "/" ++ device_id st)
           ++ "/tele/qa/dosing_check")%string
        (DosingCheckMsg ts (Py.round_nd (l_spm_teo loc) 3)
           (Py.round_nd (l_spm_real loc) 3) (l_mismatch_pct loc)
           (l_under_limit loc))
        (qos cfg) false) out.
Proof.
  intros H. pose proof (tick_sound _ _ _ _ _ _ _ _ H) as R.
  destruct (saturate_spec cfg (l_spm_noisy loc)) as (Hiff & Hle & Hover & Hkeep).
  rewrite <- (tr_under _ _ _ _ _ R) in Hiff.
  rewrite <- (tr_real _ _ _ _ _ R) in Hle, Hover, Hkeep.
  split; [exact (tr_noisy _ _ _ _ _ R)|].
  split; [exact Hiff|]. split; [exact Hle|].
  split; [intros Hu; apply Hover, Hiff, Hu|].
  split; [|eapply tick_qa_record; exact H].
  intros Hu. apply Hkeep.
  destruct (Qlt_le_dec (max_spm cfg) (l_spm_noisy loc)) as [Hlt|Hge];
    [|exact Hge].
  apply Hiff in Hlt. congruence.
Qed.

Lemma slow_ok_tick :
  tick config_slow ts0 false draws_ok (init_state "dev-001" config_slow 0.5)
  = Some slow_ok.
Proof. vm_compute. reflexivity. Qed.

Lemma under_limit_iff_over_max_witness :
  tick config_slow ts0 false draws_ok (init_state "dev-001" config_slow 0.5)
    = Some slow_ok /\
  l_under_limit (snd (fst slow_ok)) = true /\
  l_spm_real (snd (fst slow_ok)) = 10.
Proof.
  split; [exact slow_ok_tick|]. split; [reflexivity|].
  destruct (under_limit_iff_over_max _ _ _ _ _ _ _ _ slow_ok_tick)
    as (_ & _ & _ & Hcut & _).
  exact (Hcut eq_refl).
Defined.

(* ------------------------------------------------------------------ *)
(** ** C8: the mismatch percentage *)

Lemma mismatch_of_zero (teo real : Q) : teo == 0 -> mismatch_of teo real = 0.
Proof.
  intros Hz. unfold mismatch_of.
  py_case (Py.eqv teo 0); [reflexivity | contradiction].
Qed.

Lemma mismatch_of_nonzero (teo real : Q) :
  ~ teo == 0 ->
  mismatch_of teo real = Py.round_nd (100 * Qabs (real - teo) / teo) 1.
Proof.
  intros Hnz. unfold mismatch_of.
  py_case (Py.eqv teo 0); [contradiction|].
  apply py_round_nd_comp. unfold Qdiv. ring.
Qed.

(** C8.  On every tick [mismatch_pct] is 0 when the theoretical rate is 0,
    and otherwise [100 * |spm_real - spm_teo| / spm_teo] rounded to one
    decimal, where [spm_real] is the rate after the saturation at [max_spm];
    this is the value the QA record carries. *)
Theorem mismatch_pct_formula cfg ts stat_due d st st1 loc out :
  tick cfg ts stat_due d st = Some (st1, loc, out) ->
  (l_spm_teo loc == 0 -> l_mismatch_pct loc = 0) /\
  (~ l_spm_teo loc == 0 ->
     l_mismatch_pct loc =
       Py.round_nd
         (100 * Qabs (l_spm_real loc - l_spm_teo loc) / l_spm_teo loc) 1) /\
  l_spm_real loc = fst (saturate cfg (l_spm_noisy loc)) /\
  In (publish_json
        ((("soia/" ++ product cfg) ++ "/" ++ device_id st)
           ++ "/tele/qa/dosing_check")%string
        (DosingCheckMsg ts (Py.round_nd (l_spm_teo loc) 3)
           (Py.round_nd (l_spm_real loc) 3) (l_mismatch_pct loc)
           (l_under_limit loc))
        (qos cfg) false) out.
Proof.
  intros H. pose proof (tick_sound _ _ _ _ _ _ _ _ H) as R.
  rewrite (tr_mismatch _ _ _ _ _ R).
  split; [apply mismatch_of_zero|].
  split; [apply mismatch_of_nonzero|].
  split; [exact (tr_real _ _ _ _ _ R)|].
  rewrite <- (tr_mismatch _ _ _ _ _ R). eapply tick_qa_record. exact H.
Qed.

Lemma mismatch_pct_formula_witness :
  tick config_slow ts0 false draws_ok (init_state "dev-001" config_slow 0.5)
    = Some slow_ok /\
  l_spm_real (snd (fst slow_ok)) = 10 /\
  l_mismatch_pct (snd (fst slow_ok)) =
    Py.round_nd
      (100 * Qabs (l_spm_real (snd (fst slow_ok)) - l_spm_teo (snd (fst slow_ok)))
       / l_spm_teo (snd (fst slow_ok))) 1.
Proof.
  split; [exact slow_ok_tick|]. split; [reflexivity|].
  destruct (mismatch_pct_formula _ _ _ _ _ _ _ _ slow_ok_tick)
    as (_ & Hnz & _).
  apply Hnz. vm_compute. discriminate.
Defined.

(* ------------------------------------------------------------------ *)
(** ** C7: the theoretical rate *)

Lemma spm_teo_positive cfg (E Q_m3min : Q) :
  0 < E -> ~ rho_g_cm3 cfg == 0 ->
  spm_teo_of cfg E Q_m3min =
    Some ((Q_m3min * C_mgm3 cfg) / (1000 * rho_g_cm3 cfg * E)).
Proof.
  intros HE Hrho. unfold spm_teo_of, Py.div.
  py_case (Py.le E 0); [lra|].
  py_case (Py.eqv (1000 * rho_g_cm3 cfg * E) 0); [|reflexivity].
  exfalso. apply Qmult_integral in Hc0. destruct Hc0 as [Hz|Hz]; [|lra].
  apply Hrho. lra.
Qed.

Lemma spm_teo_guarded cfg (E Q_m3min : Q) :
  E <= 0 -> spm_teo_of cfg E Q_m3min = Some 0.
Proof.
  intros HE. unfold spm_teo_of. py_case (Py.le E 0); [reflexivity | lra].
Qed.

(** C7 as stated fails on a negative displacement: the guard of line 114 is
    [E <= 0], so with [E_A_CM3=-0.25] the rate at 15 m3/min is 0, not the
    quotient (which is about -18.4). *)
Lemma theoretical_rate_negative_displacement :
  active_E config_neg "A" == -0.25 /\
  spm_teo_of config_neg (active_E config_neg "A") 15 = Some 0 /\
  ~ 0 == (15 * C_mgm3 config_neg)
         / (1000 * rho_g_cm3 config_neg * active_E config_neg "A").
Proof.
  split; [reflexivity|]. split; [reflexivity|].
  vm_compute. discriminate.
Qed.

(** C7, amended.  For every flow rate and configuration: when the
    displacement is positive and the density is not zero the theoretical rate
    is [(Q * C) / (1000 * rho * E)]; when the displacement is zero or
    negative it is 0, and no error.  Every completed tick computed its
    [spm_teo] this way from the displacement of the active pump.  For
    [E = 0.25], [C = 250], [rho = 0.815] and 15 m3/min the rate is
    3750 / 203.75, which is 18.4 to one decimal. *)
Theorem theoretical_rate cfg (E Q_m3min : Q) :
  (0 < E -> ~ rho_g_cm3 cfg == 0 ->
     exists r, spm_teo_of cfg E Q_m3min = Some r /\
               r == (Q_m3min * C_mgm3 cfg) / (1000 * rho_g_cm3 cfg * E)) /\
  (E <= 0 -> spm_teo_of cfg E Q_m3min = Some 0) /\
  (forall ts stat_due d st st1 loc out,
     tick cfg ts stat_due d st = Some (st1, loc, out) ->
     l_E loc = active_E cfg (active st) /\
     (0 < l_E loc ->
        l_spm_teo loc ==
          (l_Q_m3min loc * C_mgm3 cfg) / (1000 * rho_g_cm3 cfg * l_E loc)) /\
     (l_E loc <= 0 -> l_spm_teo loc = 0)) /\
  (exists r, spm_teo_of default_config (E_A_cm3 default_config) 15 = Some r /\
             r == (15 * 250) / (1000 * 0.815 * 0.25) /\
             Py.round_nd r 1 == 18.4 /\ 18.4 <= r /\ r < 18.41).
Proof.
  split; [|split; [|split]].
  - intros HE Hrho. eexists. split; [apply spm_teo_positive; assumption|].
    reflexivity.
  - apply spm_teo_guarded.
  - intros ts stat_due d st st1 loc out H.
    pose proof (tick_sound _ _ _ _ _ _ _ _ H) as R.
    pose proof (tr_teo _ _ _ _ _ R) as Ht.
    split; [exact (tr_E _ _ _ _ _ R)|]. split.
    + intros HE. unfold spm_teo_of, Py.div in Ht.
      py_case (Py.le (l_E loc) 0); [lra|].
      destruct (Py.eqv (1000 * rho_g_cm3 cfg * l_E loc) 0); [discriminate|].
      injection Ht as <-. reflexivity.
    + intros HE. rewrite spm_teo_guarded in Ht by exact HE.
      injection Ht as <-. reflexivity.
  - eexists. split; [vm_compute; reflexivity|].
    repeat split; vm_compute; try reflexivity; discriminate.
Qed.

Lemma theoretical_rate_witness :
  (0 < E_A_cm3 default_config /\ ~ rho_g_cm3 default_config == 0) /\
  exists r, spm_teo_of default_config (E_A_cm3 default_config) 15 = Some r /\
            r == (15 * C_mgm3 default_config)
                 / (1000 * rho_g_cm3 default_config * E_A_cm3 default_config).
Proof.
  assert (HE : 0 < E_A_cm3 default_config) by (cbn; lra).
  assert (Hrho : ~ rho_g_cm3 default_config == 0) by (vm_compute; discriminate).
  split; [split; assumption|].
  exact (proj1 (theoretical_rate default_config (E_A_cm3 default_config) 15)
           HE Hrho).
Defined.

(* ------------------------------------------------------------------ *)
(** ** Every device of the fleet

    The devices share nothing but the configuration: a pass of the loop runs
    [tick] on each entry of [states], so every state the loop produces is a
    [reachable] one and the invariants above hold for every device. *)

Lemma init_fleet_reachable cfg (devs : list (string * Q)) :
  Forall (fun du => unit_draw (snd du)) devs ->
  Forall (device_reachable cfg) (init_fleet cfg devs).
Proof.
  unfold init_fleet. induction 1 as [|du rest Hu _ IH]; cbn.
  - constructor.
  - constructor; [|exact IH]. apply reach_init. exact Hu.
Qed.

Lemma loop_pass_reachable cfg ts inp :
  (forall dev, unit_draws (snd (inp dev))) ->
  forall fleet fleet1 out,
    loop_pass cfg ts inp fleet = Some (fleet1, out) ->
    Forall (device_reachable cfg) fleet ->
    Forall (device_reachable cfg) fleet1 /\
    map device_id fleet1 = map device_id fleet.
Proof.
  intros Hu. induction fleet as [|st rest IH]; intros fleet1 out H Hall; cbn in H.
  - injection H as <- _. split; [constructor | reflexivity].
  - destruct (tick cfg ts _ _ st) as [[[st1 loc1] out1]|] eqn:Ht; [|discriminate].
    destruct (loop_pass cfg ts inp rest) as [[rest1 out2]|] eqn:Hr;
      [|discriminate].
    injection H as <- _.
    inversion Hall as [|? ? Hst Hrest]; subst.
    destruct (IH _ _ eq_refl Hrest) as [IH1 IH2].
    pose proof (tr_device _ _ _ _ _ (tick_sound _ _ _ _ _ _ _ _ Ht)) as Hid.
    split; [|cbn; rewrite Hid, IH2; reflexivity].
    constructor; [|exact IH1].
    unfold device_reachable in *. rewrite Hid.
    eapply reach_tick; [exact Hst | apply Hu | exact Ht].
Qed.

Lemma run_loop_reachable cfg passes :
  Forall (fun p => forall dev, unit_draws (snd (snd p dev))) passes ->
  forall fleet fleet2 out,
    run_loop cfg passes fleet = Some (fleet2, out) ->
    Forall (device_reachable cfg) fleet ->
    Forall (device_reachable cfg) fleet2 /\
    map device_id fleet2 = map device_id fleet.
Proof.
  induction 1 as [|[ts inp] more Hu _ IH]; intros fleet fleet2 out H Hall;
    cbn in H.
  - injection H as <- _. split; [exact Hall | reflexivity].
  - destruct (loop_pass cfg ts inp fleet) as [[fleet1 out1]|] eqn:Hp;
      [|discriminate].
    destruct (run_loop cfg more fleet1) as [[fleet3 out3]|] eqn:Hr;
      [|discriminate].
    injection H as <- _.
    destruct (loop_pass_reachable _ _ _ Hu _ _ _ Hp Hall) as [H1 H2].
    destruct (IH _ _ _ Hr H1) as [H3 H4].
    split; [exact H3 | rewrite H4, H2; reflexivity].
Qed.

(** X19.  After any number of iterations of [while True] over devices built
    by [DeviceState.__init__], with proper draws: the fleet still holds the
    same devices in the same order, and every device has exactly one active
    pump, a counter between 0 and 4, and both analog signals within [1, 5]
    volts. *)
Lemma fleet_invariants cfg devs passes fleet out :
  Forall (fun du => unit_draw (snd du)) devs ->
  Forall (fun p => forall dev, unit_draws (snd (snd p dev))) passes ->
  run_loop cfg passes (init_fleet cfg devs) = Some (fleet, out) ->
  map device_id fleet = map fst devs /\
  Forall (fun st =>
            exactly_one_active st /\
            (0 <= no_detect_count st <= 4)%Z /\
            signals_in_range st) fleet.
Proof.
  intros Hdevs Hpasses Hrun.
  destruct (run_loop_reachable _ _ Hpasses _ _ _ Hrun
              (init_fleet_reachable cfg devs Hdevs)) as [Hall Hids].
  split.
  - rewrite Hids. unfold init_fleet. rewrite map_map. reflexivity.
  - apply Forall_impl with (2 := Hall). intros st Hst.
    unfold device_reachable in Hst.
    split; [apply one_of_two_exactly; eapply reachable_active; exact Hst|].
    split; [eapply reachable_count; exact Hst|].
    destruct Hst as [u0 Hu | s ts due d s1 loc o _ _ Ht].
    + apply init_signals. exact Hu.
    + eapply tick_signals. exact Ht.
Qed.

(* ------------------------------------------------------------------ *)
(** ** Further properties of the helpers and of the tick *)

(** X1.  [clamp(v, a, b)] with [a <= b]: the result is within [[a, b]]; a
    value already inside is returned; a value at or below [a] gives [a], one
    at or above [b] gives [b]; clamping twice is clamping once; and the
    result grows with [v]. *)
Theorem clamp_contract (a b : Q) :
  a <= b ->
  forall v,
    (a <= clamp v a b /\ clamp v a b <= b) /\
    (a <= v -> v <= b -> clamp v a b == v) /\
    (v <= a -> clamp v a b == a) /\
    (b <= v -> clamp v a b == b) /\
    clamp (clamp v a b) a b == clamp v a b /\
    (forall w, v <= w -> clamp v a b <= clamp w a b).
Proof.
  intros Hab v.
  assert (Hlow : forall x, x <= a -> clamp x a b == a).
  { intros x Hx. unfold clamp, Py.max, Py.min.
    py_case (Py.lt x b); [py_case (Py.lt a x) | py_case (Py.lt a b)]; lra. }
  assert (Hhigh : forall x, b <= x -> clamp x a b == b).
  { intros x Hx. unfold clamp, Py.max, Py.min.
    py_case (Py.lt x b); [py_case (Py.lt a x) | py_case (Py.lt a b)]; lra. }
  pose proof (clamp_range v a b Hab) as Hr.
  split; [exact Hr|].
  split; [apply clamp_inside|].
  split; [apply Hlow|]. split; [apply Hhigh|].
  split; [apply clamp_inside; apply Hr|].
  intros w Hvw.
  destruct (Qlt_le_dec v a) as [Hva|Hva].
  - rewrite (Hlow v) by lra. apply (clamp_range w a b Hab).
  - destruct (Qlt_le_dec b w) as [Hbw|Hbw].
    + rewrite (Hhigh w) by lra. apply Hr.
    + rewrite (clamp_inside v a b), (clamp_inside w a b); lra.
Qed.

Lemma clamp_contract_witness :
  (1:Q) <= 5 /\ clamp 7.3 1 5 == 5 /\ clamp 0.2 1 5 == 1 /\ clamp 2.8 1 5 == 2.8.
Proof.
  assert (H15 : (1:Q) <= 5) by lra.
  split; [exact H15|].
  destruct (clamp_contract 1 5 H15 7.3) as (_ & _ & _ & Hhi & _).
  destruct (clamp_contract 1 5 H15 0.2) as (_ & _ & Hlo & _).
  destruct (clamp_contract 1 5 H15 2.8) as (_ & Hin & _).
  split; [apply Hhi; lra|]. split; [apply Hlo; lra | apply Hin; lra].
Defined.

Lemma map_flow_inside cfg (volts : Q) :
  0 <= q_span_m3min cfg -> 1 <= volts ->
  map_flow_volts_to_q_m3min volts cfg == ((volts - 1) / 4) * q_span_m3min cfg.
Proof.
  intros Hs Hv. unfold map_flow_volts_to_q_m3min, Py.max.
  py_case (Py.lt 0 ((volts - 1) / 4 * q_span_m3min cfg)); [reflexivity|].
  rewrite Qdiv_literal in *.
  assert (0 <= (volts - 1) * (1 # 4) * q_span_m3min cfg) by nra. lra.
Qed.

(** X2.  [map_flow_volts_to_q_m3min] never returns a negative flow.  With a
    span that is not negative: from 1 V up it is the linear map
    [(volts - 1) / 4 * span], so 1 V is no flow and 5 V is the span; at or
    below 1 V it is 0; within 1-5 V it stays within [[0, span]]; and it
    grows with the voltage. *)
Theorem map_flow_volts_contract cfg :
  (forall volts, 0 <= map_flow_volts_to_q_m3min volts cfg) /\
  (0 <= q_span_m3min cfg ->
   forall volts,
     (1 <= volts ->
        map_flow_volts_to_q_m3min volts cfg
        == ((volts - 1) / 4) * q_span_m3min cfg) /\
     (volts <= 1 -> map_flow_volts_to_q_m3min volts cfg == 0) /\
     (1 <= volts -> volts <= 5 ->
        map_flow_volts_to_q_m3min volts cfg <= q_span_m3min cfg) /\
     map_flow_volts_to_q_m3min 5 cfg == q_span_m3min cfg /\
     (forall w, volts <= w ->
        map_flow_volts_to_q_m3min volts cfg
        <= map_flow_volts_to_q_m3min w cfg)).
Proof.
  split.
  - intros volts. unfold map_flow_volts_to_q_m3min. apply py_max_lower.
  - intros Hs volts.
    assert (Hlow : forall x, x <= 1 -> map_flow_volts_to_q_m3min x cfg == 0).
    { intros x Hx. unfold map_flow_volts_to_q_m3min.
      rewrite py_max_0_nonpos; [reflexivity|].
      rewrite Qdiv_literal.
      assert (0 <= (1 - x) * (1 # 4) * q_span_m3min cfg) by nra. lra. }
    split; [apply map_flow_inside; exact Hs|].
    split; [apply Hlow|]. split; [|split].
    + intros H1 H5. rewrite map_flow_inside by assumption.
      rewrite Qdiv_literal.
      assert (0 <= (5 - volts) * (1 # 4) * q_span_m3min cfg) by nra. lra.
    + rewrite map_flow_inside by (try assumption; lra).
      rewrite Qdiv_literal. ring.
    + intros w Hvw. destruct (Qlt_le_dec volts 1) as [Hv|Hv].
      * rewrite (Hlow volts) by lra.
        unfold map_flow_volts_to_q_m3min. apply py_max_lower.
      * rewrite !map_flow_inside by (try assumption; lra).
        rewrite !Qdiv_literal.
        assert (0 <= (w - volts) * (1 # 4) * q_span_m3min cfg) by nra. lra.
Qed.

Lemma map_flow_volts_contract_witness :
  0 <= q_span_m3min default_config /\
  map_flow_volts_to_q_m3min 3 default_config
  == ((3 - 1) / 4) * q_span_m3min default_config.
Proof.
  assert (Hs : 0 <= q_span_m3min default_config) by (cbn; lra).
  split; [exact Hs|].
  destruct (proj2 (map_flow_volts_contract default_config) Hs 3) as (Hin & _).
  apply Hin. lra.
Defined.

(** X3.  The flow signal is a bounded random walk: from a state whose flow
    signal is within 1-5 V, a tick with a proper draw moves it by at most
    0.06 V; with a span that is not negative the flow of the tick is within
    [[0, span]]; the hourly flow is 60 times the flow per minute. *)
Theorem flow_walk_bounded cfg ts stat_due d st st1 loc out :
  tick cfg ts stat_due d st = Some (st1, loc, out) ->
  unit_draw (u_flow d) ->
  1 <= flow_volts st -> flow_volts st <= 5 ->
  (flow_volts st - 0.06 <= flow_volts st1 /\
   flow_volts st1 <= flow_volts st + 0.06) /\
  (0 <= q_span_m3min cfg ->
     0 <= l_Q_m3min loc /\ l_Q_m3min loc <= q_span_m3min cfg) /\
  l_Q_m3h loc == 60 * l_Q_m3min loc.
Proof.
  intros H Hu Hlo Hhi. pose proof (tick_sound _ _ _ _ _ _ _ _ H) as R.
  assert (Hab : -0.06 <= 0.06) by lra.
  destruct (uniform_range (-0.06) 0.06 (u_flow d) Hab Hu) as [Hu1 Hu2].
  assert (H15 : (1:Q) <= 5) by lra.
  set (v := flow_volts st + Py.uniform (-0.06) 0.06 (u_flow d)) in *.
  pose proof (clamp_range v 1 5 H15) as [Hc1 Hc2].
  assert (Hstep : flow_volts st - 0.06 <= clamp v 1 5 /\
                  clamp v 1 5 <= flow_volts st + 0.06).
  { destruct (Qlt_le_dec v 1) as [Hv|Hv].
    - assert (Hc : clamp v 1 5 == 1).
      { unfold clamp, Py.max, Py.min.
        py_case (Py.lt v 5); [py_case (Py.lt 1 v) | py_case (Py.lt 1 5)]; lra. }
      rewrite Hc. unfold v in *. split; lra.
    - destruct (Qlt_le_dec 5 v) as [Hv5|Hv5].
      + assert (Hc : clamp v 1 5 == 5).
        { unfold clamp, Py.max, Py.min.
          py_case (Py.lt v 5); [py_case (Py.lt 1 v) | py_case (Py.lt 1 5)]; lra. }
        rewrite Hc. unfold v in *. split; lra.
      + rewrite (clamp_inside v 1 5 Hv Hv5). unfold v. split; lra. }
  rewrite (tr_flow _ _ _ _ _ R). fold v.
  split; [exact Hstep|]. split.
  - intros Hs. rewrite (tr_Q _ _ _ _ _ R), (tr_flow _ _ _ _ _ R). fold v.
    split; [unfold map_flow_volts_to_q_m3min; apply py_max_lower|].
    rewrite map_flow_inside by assumption. rewrite Qdiv_literal.
    assert (0 <= (5 - clamp v 1 5) * (1 # 4) * q_span_m3min cfg) by nra. lra.
  - rewrite (tr_Qh _ _ _ _ _ R). ring.
Qed.

Lemma draws_ok_unit : unit_draws draws_ok.
Proof. unfold unit_draws, unit_draw; cbn. repeat split; lra. Qed.

Lemma flow_walk_bounded_witness :
  (tick default_config ts0 false draws_ok st_boot = Some boot_ok /\
   unit_draw (u_flow draws_ok) /\
   1 <= flow_volts st_boot /\ flow_volts st_boot <= 5) /\
  flow_volts st_boot - 0.06 <= flow_volts (fst (fst boot_ok)) /\
  flow_volts (fst (fst boot_ok)) <= flow_volts st_boot + 0.06.
Proof.
  assert (Hu : unit_draw (u_flow draws_ok)) by apply draws_ok_unit.
  assert (H1 : 1 <= flow_volts st_boot) by (vm_compute; discriminate).
  assert (H5 : flow_volts st_boot <= 5) by (vm_compute; discriminate).
  split; [repeat split; try assumption; try apply Hu; exact boot_ok_tick|].
  exact (proj1 (flow_walk_bounded _ _ _ _ _ _ _ _ boot_ok_tick Hu H1 H5)).
Defined.

(** X4.  The pulses of a tick respect the mechanical limit: with a period
    and a limit that are not negative, the pulse count is at most
    [max_spm * period_s / 60], up to the half pulse of the rounding. *)
Theorem pulses_within_limit cfg ts stat_due d st st1 loc out :
  tick cfg ts stat_due d st = Some (st1, loc, out) ->
  0 <= period_s cfg -> 0 <= max_spm cfg ->
  inject_Z (l_pulses_this_period loc)
  <= max_spm cfg * (period_s cfg / 60) + (1 # 2).
Proof.
  intros H Hper Hmax. pose proof (tick_sound _ _ _ _ _ _ _ _ H) as R.
  rewrite (tr_pulses _ _ _ _ _ R). unfold pulses_of.
  destruct (saturate_spec cfg (l_spm_noisy loc)) as (_ & Hle & _).
  rewrite <- (tr_real _ _ _ _ _ R) in Hle.
  set (x := l_spm_real loc * (period_s cfg / 60)).
  destruct (py_round_near x) as [_ Hup].
  assert (Hx : x <= max_spm cfg * (period_s cfg / 60)).
  { unfold x. rewrite !Qdiv_literal.
    assert (0 <= (max_spm cfg - l_spm_real loc) * (period_s cfg * (1 # 60)))
      by nra. lra. }
  assert (Hb : 0 <= max_spm cfg * (period_s cfg / 60)).
  { rewrite Qdiv_literal. nra. }
  destruct (Z.max_spec 0 (Py.round x)) as [[_ ->] | [_ ->]].
  - lra.
  - change (inject_Z 0) with 0. lra.
Qed.

Lemma pulses_within_limit_witness :
  (tick config_slow ts0 false draws_ok (init_state "dev-001" config_slow 0.5)
     = Some slow_ok /\
   0 <= period_s config_slow /\ 0 <= max_spm config_slow) /\
  inject_Z (l_pulses_this_period (snd (fst slow_ok)))
  <= max_spm config_slow * (period_s config_slow / 60) + (1 # 2).
Proof.
  assert (H1 : 0 <= period_s config_slow) by (cbn; lra).
  assert (H2 : 0 <= max_spm config_slow) by (cbn; lra).
  split; [repeat split; try assumption; exact slow_ok_tick|].
  exact (pulses_within_limit _ _ _ _ _ _ _ _ slow_ok_tick H1 H2).
Defined.



Lemma tick_no_pulses cfg ts stat_due d st st1 loc out :
  tick cfg ts stat_due d st = Some (st1, loc, out) ->
  0 <= max_spm cfg ->
  l_E loc <= 0 \/ l_Q_m3min loc == 0 ->
  l_pulses_this_period loc = 0%Z.
Proof.
  intros H Hmax Hcase. pose proof (tick_sound _ _ _ _ _ _ _ _ H) as R.
  assert (Hteo : l_spm_teo loc == 0).
  { pose proof (tr_teo _ _ _ _ _ R) as Ht. unfold spm_teo_of, Py.div in Ht.
    py_case (Py.le (l_E loc) 0).
    - injection Ht as <-. reflexivity.
    - destruct Hcase as [HE|HQ]; [lra|].
      destruct (Py.eqv (1000 * rho_g_cm3 cfg * l_E loc) 0); [discriminate|].
      injection Ht as <-. rewrite HQ. unfold Qdiv. ring. }
  assert (Hnoisy : l_spm_noisy loc == 0).
  { rewrite (tr_noisy _ _ _ _ _ R). unfold spm_noisy_of. rewrite Hteo. ring. }
  assert (Hreal : l_spm_real loc == 0).
  { destruct (saturate_spec cfg (l_spm_noisy loc)) as (_ & _ & _ & Hkeep).
    rewrite (tr_real _ _ _ _ _ R), Hkeep by lra. exact Hnoisy. }
  rewrite (tr_pulses _ _ _ _ _ R). unfold pulses_of.
  rewrite (py_round_comp _ 0) by (rewrite Hreal; ring).
  reflexivity.
Qed.

(** X7.  Ticks without pulses are idle.  With a mechanical limit that is not
    negative, no flow (or an active pump whose displacement is not positive)
    gives no pulse.  And from a reachable state a tick without pulses, be the
    sensor in FAIL or not, leaves the active pump, the counter and both
    totals as they were, does not rotate, and leaves the tank as it was when
    its volume is not negative. *)
Theorem idle_tick cfg dev st :
  reachable cfg dev st ->
  forall ts stat_due d st1 loc out,
    tick cfg ts stat_due d st = Some (st1, loc, out) ->
    (0 <= max_spm cfg -> l_E loc <= 0 \/ l_Q_m3min loc == 0 ->
       l_pulses_this_period loc = 0%Z) /\
    (l_pulses_this_period loc = 0%Z ->
       active st1 = active st /\
       no_detect_count st1 = no_detect_count st /\
       pulses_total_A st1 = pulses_total_A st /\
       pulses_total_B st1 = pulses_total_B st /\
       l_rotated loc = false /\
       (0 <= tank_l st -> tank_l st1 == tank_l st)).
Proof.
  intros Hreach ts stat_due d st1 loc out H.
  split; [apply (tick_no_pulses _ _ _ _ _ _ _ _ H)|].
  intros Hz.
  pose proof (reachable_count _ _ _ Hreach) as Hn.
  pose proof (tick_sound _ _ _ _ _ _ _ _ H) as R.
  pose proof (tr_rotate _ _ _ _ _ R) as Hrot.
  assert (Hcount : l_count loc = no_detect_count st).
  { rewrite (tr_count _ _ _ _ _ R), count_update_fail_or_idle by auto. lia. }
  rewrite Hcount, rotate_idle in Hrot by lia.
  injection Hrot as Ha Hc Hr _.
  destruct (tick_totals _ _ _ _ _ _ _ _ H) as [HA HB].
  assert (Htot : pulses_total_A st1 = pulses_total_A st /\
                 pulses_total_B st1 = pulses_total_B st).
  { destruct (String.eqb_spec (active st1) "A") as [Hact|Hact];
      [destruct (HA Hact) | destruct (HB Hact)]; split; lia. }
  destruct Htot as [HtA HtB].
  repeat (split; [congruence|]).
  intros Htank. rewrite (tr_tank _ _ _ _ _ R), Hz. unfold tank_consume, Py.max.
  py_case (Py.lt 0 (tank_l st - inject_Z 0 * l_E loc / 1000));
    rewrite Qdiv_literal in *; change (inject_Z 0) with 0 in *; lra.
Qed.

Lemma still_fail_tick :
  tick config_still ts0 false draws_fail (init_state "dev-001" config_still 0.5)
  = Some still_fail.
Proof. vm_compute. reflexivity. Qed.

Lemma idle_tick_witness :
  (reachable config_still "dev-001" (init_state "dev-001" config_still 0.5) /\
   tick config_still ts0 false draws_fail
     (init_state "dev-001" config_still 0.5) = Some still_fail /\
   l_pulses_this_period (snd (fst still_fail)) = 0%Z) /\
  l_di_state (snd (fst still_fail)) = "closed"%string /\
  active (fst (fst still_fail)) = "A"%string /\
  no_detect_count (fst (fst still_fail)) = 0%Z.
Proof.
  assert (Hr : reachable config_still "dev-001"
                 (init_state "dev-001" config_still 0.5)).
  { apply reach_init. unfold unit_draw. split; lra. }
  split; [split; [exact Hr | split; [exact still_fail_tick | reflexivity]]|].
  split; [reflexivity|].
  destruct (idle_tick _ _ _ Hr _ _ _ _ _ _ still_fail_tick) as [_ Hidle].
  destruct (Hidle eq_refl) as (Ha & Hc & _).
  split; [exact Ha | exact Hc].
Defined.

Lemma pulses_reported_app (l1 l2 : list Msg) :
  pulses_reported (l1 ++ l2) = (pulses_reported l1 + pulses_reported l2)%Z.
Proof.
  induction l1 as [|m rest IH]; cbn [app pulses_reported]; [reflexivity|].
  destruct (payload m); rewrite IH; lia.
Qed.

Lemma tick_pulses_reported cfg ts stat_due d st st1 loc out :
  tick cfg ts stat_due d st = Some (st1, loc, out) ->
  active st1 = "A"%string \/ active st1 = "B"%string ->
  pulses_reported out = l_pulses_this_period loc /\
  (pulses_total_A st1 + pulses_total_B st1
   = pulses_total_A st + pulses_total_B st + l_pulses_this_period loc)%Z.
Proof.
  intros H Hact. split.
  - rewrite (tick_messages _ _ _ _ _ _ _ _ H), pulses_reported_app.
    assert (Hstat : forall c (m : Msg),
              payload m = ActiveDoserMsg ts (active st1) (l_reason loc) ->
              pulses_reported (if c : bool then [m] else []) = 0%Z).
    { intros c m Hm. destruct c; cbn [pulses_reported]; [rewrite Hm|]; reflexivity. }
    rewrite Hstat by reflexivity.
    cbn [pulses_reported payload publish_json].
    destruct Hact as [-> | ->]; cbn [String.eqb Ascii.eqb Bool.eqb]; lia.
  - destruct (tick_totals _ _ _ _ _ _ _ _ H) as [HA HB].
    destruct (String.eqb_spec (active st1) "A") as [Ha|Ha];
      [destruct (HA Ha) | destruct (HB Ha)]; lia.
Qed.

Lemma run_ticks_pulses_reported cfg ins : forall st st2 out,
  run_ticks cfg ins st = Some (st2, out) ->
  active st = "A"%string \/ active st = "B"%string ->
  (pulses_reported out
   = pulses_total_A st2 + pulses_total_B st2
     - (pulses_total_A st + pulses_total_B st))%Z.
Proof.
  induction ins as [|i rest IH]; intros st st2 out H Hact; cbn in H.
  - injection H as <- <-. cbn. lia.
  - destruct (tick cfg (in_ts i) (in_stat_due i) (in_draws i) st)
      as [[[st1 loc1] out1]|] eqn:Ht; [|discriminate].
    destruct (run_ticks cfg rest st1) as [[st3 out3]|] eqn:Hr; [|discriminate].
    injection H as <- <-.
    pose proof (tick_active _ _ _ _ _ _ _ _ Ht Hact) as Hact1.
    destruct (tick_pulses_reported _ _ _ _ _ _ _ _ Ht Hact1) as [Hrep Hsum].
    rewrite pulses_reported_app, Hrep, (IH _ _ _ Hr Hact1). lia.
Qed.

(** X8.  Every pulse is counted once.  On a tick from a reachable state the
    two pulse records together report exactly the pulses of the tick, and
    the two lifetime totals together grow by that number; so over any run of
    ticks the pulses reported in the pulse records add up to the growth of
    [pulses_total_A + pulses_total_B]. *)
Theorem pulses_accounted cfg dev st :
  reachable cfg dev st ->
  (forall ts stat_due d st1 loc out,
     tick cfg ts stat_due d st = Some (st1, loc, out) ->
     pulses_reported out = l_pulses_this_period loc /\
     (pulses_total_A st1 + pulses_total_B st1
      = pulses_total_A st + pulses_total_B st + l_pulses_this_period loc)%Z) /\
  (forall ins st2 out,
     run_ticks cfg ins st = Some (st2, out) ->
     (pulses_reported out
      = pulses_total_A st2 + pulses_total_B st2
        - (pulses_total_A st + pulses_total_B st))%Z).
Proof.
  intros Hreach. pose proof (reachable_active _ _ _ Hreach) as Hact. split.
  - intros ts stat_due d st1 loc out H.
    apply (tick_pulses_reported _ _ _ _ _ _ _ _ H).
    apply (tick_active _ _ _ _ _ _ _ _ H Hact).
  - intros ins st2 out H. apply (run_ticks_pulses_reported _ _ _ _ _ H Hact).
Qed.

Lemma pulses_accounted_witness :
  reachable config_trickle "dev-001" (init_state "dev-001" config_trickle 0.5) /\
  exists st2 out,
    run_ticks config_trickle [input_fail; input_fail; input_fail]
      (init_state "dev-001" config_trickle 0.5) = Some (st2, out) /\
    (pulses_reported out = pulses_total_A st2 + pulses_total_B st2 - (0 + 0))%Z.
Proof.
  assert (Hr : reachable config_trickle "dev-001"
                 (init_state "dev-001" config_trickle 0.5)).
  { apply reach_init. unfold unit_draw. split; lra. }
  split; [exact Hr|].
  eassert (H : run_ticks config_trickle [input_fail; input_fail; input_fail]
                 (init_state "dev-001" config_trickle 0.5) = Some (_, _))
    by (vm_compute; reflexivity).
  do 2 eexists. split; [exact H|].
  exact (proj2 (pulses_accounted _ _ _ Hr) _ _ _ H).
Defined.

Lemma prefix_app (b x y : string) :
  String.prefix x y = true -> String.prefix (b ++ x) (b ++ y) = true.
Proof.
  intros Hxy. induction b as [|c b IH]; cbn; [exact Hxy|].
  destruct (ascii_dec c c) as [_|Hne]; [exact IH | contradiction].
Qed.

(** X9.  The messages of a tick.  A tick publishes the six telemetry records
    in a fixed order and then, exactly when the pump rotated or a refresh is
    due, the status record: six or seven messages.  Every topic lies under
    [soia/<product>/<device>/]; every message goes out with the configured
    qos; and no telemetry record is retained: a retained message is the
    status record, and only when [retain_stat] is set. *)
Theorem tick_messages_envelope cfg ts stat_due d st st1 loc out :
  tick cfg ts stat_due d st = Some (st1, loc, out) ->
  let base := (("soia/" ++ product cfg) ++ "/" ++ device_id st)%string in
  length out = (if l_rotated loc || stat_due then 7 else 6)%nat /\
  map topic (firstn 6 out) =
    [ base ++ "/tele/ai/flow"; base ++ "/tele/di/inj_sensor";
      base ++ "/tele/pulse/doserA"; base ++ "/tele/pulse/doserB";
      base ++ "/tele/qa/dosing_check"; base ++ "/tele/ai/level" ]%string /\
  skipn 6 out =
    (if l_rotated loc || stat_due
     then [publish_json (base ++ "/stat/active_doser")
             (ActiveDoserMsg ts (active st1) (l_reason loc))
             (qos cfg) (retain_stat cfg)]
     else []) /\
  Forall (fun m => String.prefix (base ++ "/") (topic m) = true) out /\
  Forall (fun m => msg_qos m = qos cfg) out /\
  Forall (fun m => retain m = true ->
                   retain_stat cfg = true /\
                   payload m = ActiveDoserMsg ts (active st1) (l_reason loc))
         out.
Proof.
  intros H base. rewrite (tick_messages _ _ _ _ _ _ _ _ H). fold base.
  split; [destruct (l_rotated loc || stat_due); reflexivity|].
  split; [reflexivity|]. split; [reflexivity|].
  split; [|split].
  - apply Forall_app. split.
    + repeat constructor; cbn [topic publish_json];
        apply prefix_app; reflexivity.
    + destruct (l_rotated loc || stat_due); repeat constructor.
      cbn [topic publish_json]. apply prefix_app. reflexivity.
  - apply Forall_app. split; [repeat constructor|].
    destruct (l_rotated loc || stat_due); repeat constructor.
  - apply Forall_app. split.
    + repeat constructor; cbn [retain publish_json]; discriminate.
    + destruct (l_rotated loc || stat_due); repeat constructor;
        cbn [retain payload publish_json] in *; auto.
Qed.

Lemma tick_messages_envelope_witness :
  tick default_config ts0 false draws_ok st_boot = Some boot_ok /\
  length (snd boot_ok) = 6%nat /\
  Forall (fun m => msg_qos m = qos default_config) (snd boot_ok).
Proof.
  split; [exact boot_ok_tick|].
  destruct (tick_messages_envelope _ _ _ _ _ _ _ _ boot_ok_tick)
    as (Hlen & _ & _ & _ & Hqos & _).
  split; [exact Hlen | exact Hqos].
Defined.

(** X10.  The level signal follows the tank.  After a tick from a reachable
    state, with displacements that are not negative: when the capacity is
    positive the percentage is [100 * tank_l / tank_liters], within
    [[0, 100]], and the signal is [1 + 4 * tank_l / tank_liters] volts (1 V
    empty, 5 V full); when the capacity is zero or negative the division is
    skipped, the percentage is 0 and the signal is 1 V. *)
Theorem level_follows_tank cfg dev st :
  reachable cfg dev st ->
  0 <= E_A_cm3 cfg -> 0 <= E_B_cm3 cfg ->
  forall ts stat_due d st1 loc out,
    tick cfg ts stat_due d st = Some (st1, loc, out) ->
    (0 < tank_liters cfg ->
       l_level_pct loc == 100 * tank_l st1 / tank_liters cfg /\
       (0 <= l_level_pct loc /\ l_level_pct loc <= 100) /\
       level_volts st1 == 1 + 4 * tank_l st1 / tank_liters cfg) /\
    (tank_liters cfg <= 0 ->
       l_level_pct loc == 0 /\ level_volts st1 == 1).
Proof.
  intros Hreach HA HB ts stat_due d st1 loc out H.
  pose proof (tick_sound _ _ _ _ _ _ _ _ H) as R.
  rewrite (tr_level _ _ _ _ _ R), (tr_pct _ _ _ _ _ R).
  unfold level_volts_of, level_pct_of. split.
  - intros Hcap.
    assert (Hcap0 : 0 <= tank_liters cfg) by lra.
    destruct (reachable_tank _ _ _ Hcap0 HA HB Hreach) as [_ Hst].
    pose proof (tick_consumed_nonneg _ _ _ _ _ _ _ _ HA HB H) as Hc.
    assert (Ht0 : 0 <= tank_l st1)
      by (rewrite (tr_tank _ _ _ _ _ R); apply tank_consume_nonneg).
    assert (Ht1 : tank_l st1 <= tank_liters cfg)
      by (rewrite (tr_tank _ _ _ _ _ R); apply tank_consume_le; assumption).
    py_case (Py.lt 0 (tank_liters cfg)); [|lra].
    set (r := tank_l st1 / tank_liters cfg).
    assert (Hr0 : 0 <= r) by (apply Qle_shift_div_l; [exact Hcap | lra]).
    assert (Hr1 : r <= 1) by (apply Qle_shift_div_r; [exact Hcap | lra]).
    assert (Hpct : 100 * tank_l st1 / tank_liters cfg == 100 * r)
      by (unfold r, Qdiv; ring).
    assert (Hv : 4 * tank_l st1 / tank_liters cfg == 4 * r)
      by (unfold r, Qdiv; ring).
    rewrite Hpct, Hv.
    split; [reflexivity|]. split; [split; lra|].
    rewrite (clamp_inside (100 * r) 0 100) by lra.
    rewrite Qdiv_literal. ring.
  - intros Hcap. py_case (Py.lt 0 (tank_liters cfg)); [lra|].
    split; [ring|].
    rewrite (clamp_inside (100 * 0) 0 100) by lra.
    rewrite Qdiv_literal. ring.
Qed.

Lemma level_follows_tank_witness :
  (reachable default_config "dev-001" st_boot /\
   0 <= E_A_cm3 default_config /\ 0 <= E_B_cm3 default_config /\
   tick default_config ts0 false draws_ok st_boot = Some boot_ok /\
   0 < tank_liters default_config) /\
  level_volts (fst (fst boot_ok))
  == 1 + 4 * tank_l (fst (fst boot_ok)) / tank_liters default_config.
Proof.
  assert (H2 : 0 <= E_A_cm3 default_config) by (cbn; lra).
  assert (H3 : 0 <= E_B_cm3 default_config) by (cbn; lra).
  assert (H4 : 0 < tank_liters default_config) by (cbn; lra).
  split;
    [split; [exact st_boot_reachable | split; [exact H2 | split; [exact H3 |
       split; [exact boot_ok_tick | exact H4]]]]|].
  destruct (level_follows_tank _ _ _ st_boot_reachable H2 H3
              _ _ _ _ _ _ boot_ok_tick) as [Hpos _].
  exact (proj2 (proj2 (Hpos H4))).
Defined.

Lemma tick_tank_le cfg ts stat_due d st st1 loc out :
  0 <= E_A_cm3 cfg -> 0 <= E_B_cm3 cfg ->
  tick cfg ts stat_due d st = Some (st1, loc, out) ->
  0 <= tank_l st -> 0 <= tank_l st1 /\ tank_l st1 <= tank_l st.
Proof.
  intros HA HB H Ht. pose proof (tick_sound _ _ _ _ _ _ _ _ H) as R.
  pose proof (tick_consumed_nonneg _ _ _ _ _ _ _ _ HA HB H) as Hc.
  rewrite (tr_tank _ _ _ _ _ R).
  split; [apply tank_consume_nonneg|].
  apply tank_consume_le; [exact Ht | lra | exact Hc].
Qed.

(** X11.  The tank never refills.  With displacements that are not negative,
    over any run of ticks from a state whose tank volume is not negative the
    volume never grows and never becomes negative; a tick that does not
    empty the tank takes exactly [pulses * E / 1000] litres from it. *)
Theorem tank_never_refills cfg :
  0 <= E_A_cm3 cfg -> 0 <= E_B_cm3 cfg ->
  (forall ins st st2 out,
     run_ticks cfg ins st = Some (st2, out) ->
     0 <= tank_l st -> 0 <= tank_l st2 /\ tank_l st2 <= tank_l st) /\
  (forall ts stat_due d st st1 loc out,
     tick cfg ts stat_due d st = Some (st1, loc, out) ->
     l_consumed_cm3 loc / 1000 <= tank_l st ->
     tank_l st1 == tank_l st - l_consumed_cm3 loc / 1000).
Proof.
  intros HA HB. split.
  - intros ins st st2 out Hrun Ht.
    apply (run_ticks_invariant cfg
             (fun s => 0 <= tank_l s /\ tank_l s <= tank_l st))
      with (2 := Hrun); [|split; lra].
    intros ts due d s s1 loc o Hs [Hs0 Hs1].
    destruct (tick_tank_le _ _ _ _ _ _ _ _ HA HB Hs Hs0). split; lra.
  - intros ts stat_due d st st1 loc out H Hfit.
    pose proof (tick_sound _ _ _ _ _ _ _ _ H) as R.
    rewrite (tr_tank _ _ _ _ _ R), (tr_consumed _ _ _ _ _ R) in *.
    unfold tank_consume, Py.max.
    py_case (Py.lt 0 (tank_l st - inject_Z (l_pulses_this_period loc) * l_E loc / 1000));
      [reflexivity|].
    rewrite Qdiv_literal in *. lra.
Qed.

Lemma tank_never_refills_witness :
  (0 <= E_A_cm3 default_config /\ 0 <= E_B_cm3 default_config /\
   tick default_config ts0 false draws_ok st_boot = Some boot_ok /\
   l_consumed_cm3 (snd (fst boot_ok)) / 1000 <= tank_l st_boot) /\
  tank_l (fst (fst boot_ok))
  == tank_l st_boot - l_consumed_cm3 (snd (fst boot_ok)) / 1000.
Proof.
  assert (H2 : 0 <= E_A_cm3 default_config) by (cbn; lra).
  assert (H3 : 0 <= E_B_cm3 default_config) by (cbn; lra).
  assert (H4 : l_consumed_cm3 (snd (fst boot_ok)) / 1000 <= tank_l st_boot)
    by (vm_compute; discriminate).
  split; [split; [exact H2 | split; [exact H3 | split;
            [exact boot_ok_tick | exact H4]]]|].
  exact (proj2 (tank_never_refills default_config H2 H3)
           _ _ _ _ _ _ _ boot_ok_tick H4).
Defined.

(** [round(x, 1)] is within one twentieth of [x]. *)
Lemma py_round_1_near (x : Q) :
  x - (1 # 20) <= Py.round_nd x 1 /\ Py.round_nd x 1 <= x + (1 # 20).
Proof.
  unfold Py.round_nd. change (inject_Z (10 ^ Z.of_nat 1)) with (10#1).
  destruct (py_round_near (x * (10#1))) as [Hlo Hhi].
  rewrite Qdiv_literal. split; lra.
Qed.

(** X12.  Without saturation the mismatch is the noise.  On a tick that did
    not hit the mechanical limit, with a proper noise draw and a noise
    magnitude that is not negative, the reported mismatch is at most
    [100 * mismatch_noise_pct], up to the 0.05 of its rounding. *)
Theorem mismatch_within_noise cfg ts stat_due d st st1 loc out :
  tick cfg ts stat_due d st = Some (st1, loc, out) ->
  unit_draw (u_noise d) ->
  0 <= mismatch_noise_pct cfg ->
  l_under_limit loc = false ->
  l_mismatch_pct loc <= 100 * mismatch_noise_pct cfg + (1 # 20).
Proof.
  intros H Hu Hnp Hunder. pose proof (tick_sound _ _ _ _ _ _ _ _ H) as R.
  assert (Hreal : l_spm_real loc = l_spm_noisy loc).
  { destruct (saturate_spec cfg (l_spm_noisy loc)) as (Hiff & _ & _ & Hkeep).
    rewrite (tr_real _ _ _ _ _ R). apply Hkeep.
    destruct (Qlt_le_dec (max_spm cfg) (l_spm_noisy loc)) as [Hlt|Hge];
      [|exact Hge].
    apply Hiff in Hlt. rewrite <- (tr_under _ _ _ _ _ R) in Hlt. congruence. }
  rewrite (tr_mismatch _ _ _ _ _ R). unfold mismatch_of.
  py_case (Py.eqv (l_spm_teo loc) 0); [lra|].
  set (teo := l_spm_teo loc) in *.
  assert (Hab : - mismatch_noise_pct cfg <= mismatch_noise_pct cfg) by lra.
  destruct (uniform_range _ _ (u_noise d) Hab Hu) as [Hn1 Hn2].
  set (n := Py.uniform (- mismatch_noise_pct cfg) (mismatch_noise_pct cfg)
              (u_noise d)) in *.
  assert (Hdiff : l_spm_real loc - teo == teo * n).
  { rewrite Hreal, (tr_noisy _ _ _ _ _ R). unfold spm_noisy_of. fold teo n. ring. }
  assert (Hx : Qabs (l_spm_real loc - teo) / teo * 100
               <= 100 * mismatch_noise_pct cfg).
  { rewrite Hdiff. apply Qabs_case; intros Hsign.
    - assert (He : teo * n / teo * 100 == 100 * n) by (field; exact Hc).
      rewrite He. lra.
    - assert (He : - (teo * n) / teo * 100 == - (100 * n)) by (field; exact Hc).
      rewrite He. lra. }
  destruct (py_round_1_near (Qabs (l_spm_real loc - teo) / teo * 100))
    as [_ Hup].
  lra.
Qed.

Lemma mismatch_within_noise_witness :
  (tick default_config ts0 false draws_ok st_boot = Some boot_ok /\
   unit_draw (u_noise draws_ok) /\
   0 <= mismatch_noise_pct default_config /\
   l_under_limit (snd (fst boot_ok)) = false) /\
  l_mismatch_pct (snd (fst boot_ok))
  <= 100 * mismatch_noise_pct default_config + (1 # 20).
Proof.
  assert (Hu : unit_draw (u_noise draws_ok)) by apply draws_ok_unit.
  assert (Hn : 0 <= mismatch_noise_pct default_config) by (cbn; lra).
  split; [split; [exact boot_ok_tick | split; [exact Hu | split;
            [exact Hn | reflexivity]]]|].
  exact (mismatch_within_noise _ _ _ _ _ _ _ _ boot_ok_tick Hu Hn eq_refl).
Defined.

(* ------------------------------------------------------------------ *)
(** ** Further properties of the loop over the devices *)

Lemma loop_pass_ext cfg ts inp1 inp2 (fleet : Fleet) :
  (forall dev, inp1 dev = inp2 dev) ->
  loop_pass cfg ts inp1 fleet = loop_pass cfg ts inp2 fleet.
Proof.
  intros Hext. induction fleet as [|st rest IH]; cbn [loop_pass]; [reflexivity|].
  rewrite (Hext (device_id st)), IH. reflexivity.
Qed.

Lemma loop_pass_refresh_length cfg ts draws : forall (fleet fleet1 : Fleet) out,
  loop_pass cfg ts (fun dev => (true, draws dev)) fleet = Some (fleet1, out) ->
  length fleet1 = length fleet /\ length out = (7 * length fleet)%nat.
Proof.
  induction fleet as [|st rest IH]; intros fleet1 out H; cbn [loop_pass] in H.
  - injection H as <- <-. split; reflexivity.
  - cbn [fst snd] in H.
    destruct (tick cfg ts true (draws (device_id st)) st)
      as [[[st1 loc1] out1]|] eqn:Ht; [|discriminate].
    destruct (loop_pass cfg ts _ rest) as [[g1 o1]|] eqn:Hr; [|discriminate].
    injection H as <- <-. destruct (IH _ _ eq_refl) as [Hl Ho].
    rewrite (tick_messages _ _ _ _ _ _ _ _ Ht), orb_true_r.
    rewrite !length_app. cbn [length]. rewrite Hl, Ho. split; lia.
Qed.

Lemma next_stat_time_after_le (next test_reading set_reading hi : Q) :
  next <= hi -> set_reading <= hi ->
  next_stat_time_after next test_reading set_reading <= hi.
Proof.
  intros Hn Hs. unfold next_stat_time_after.
  destruct (Py.le 300 (test_reading - next)); assumption.
Qed.

Lemma iterations_refresh cfg : forall pcs s lo,
  ls_next_stat_time s <= lo -> clocks_ok lo pcs ->
  option_map (fun r => (ls_fleet (fst r), snd r)) (iterations cfg pcs s)
  = run_loop cfg
      (map (fun pc => (pc_ts pc, fun dev => (true, pc_draws pc dev))) pcs)
      (ls_fleet s).
Proof.
  induction pcs as [|pc more IH]; intros s lo Hnext Hok; [reflexivity|].
  destruct Hok as [(Ht0 & Hnow & Hts & Hse) Hmore].
  cbn [iterations map run_loop]. unfold iteration.
  rewrite (loop_pass_ext cfg (pc_ts pc) _ (fun dev => (true, pc_draws pc dev))).
  2:{ intros dev. f_equal. apply py_le_true.
      destruct (Hnow dev) as [Hd _]. lra. }
  destruct (loop_pass cfg (pc_ts pc) _ (ls_fleet s)) as [[fleet1 out1]|];
    [|reflexivity].
  specialize (IH {| ls_fleet := fleet1;
                    ls_next_stat_time :=
                      next_stat_time_after (ls_next_stat_time s)
                        (pc_test pc) (pc_set pc) |} (pc_end pc)).
  cbn [ls_fleet ls_next_stat_time] in IH.
  rewrite <- IH; [|apply next_stat_time_after_le; [|exact Hse] | exact Hmore].
  - destruct (iterations cfg more _) as [[s2 out2]|]; reflexivity.
  - destruct (Hnow EmptyString) as [Ha Hb]. lra.
Qed.

Lemma run_loop_refresh_length cfg :
  forall (passes : list (string * (string -> Draws))) (fleet fleet2 : Fleet) out,
    run_loop cfg
      (map (fun p => (fst p, fun dev => (true, snd p dev))) passes) fleet
    = Some (fleet2, out) ->
    length fleet2 = length fleet /\
    length out = (7 * length fleet * length passes)%nat.
Proof.
  induction passes as [|[ts draws] more IH]; intros fleet fleet2 out H;
    cbn [map run_loop fst snd] in H.
  - injection H as <- <-. cbn. split; lia.
  - destruct (loop_pass cfg ts _ fleet) as [[fleet1 out1]|] eqn:Hp;
      [|discriminate].
    destruct (run_loop cfg _ fleet1) as [[fleet3 out3]|] eqn:Hr;
      [|discriminate].
    injection H as <- <-.
    destruct (loop_pass_refresh_length _ _ _ _ _ _ Hp) as [Hl1 Ho1].
    destruct (IH _ _ _ Hr) as [Hl2 Ho2].
    rewrite length_app, Ho1, Ho2, Hl2, Hl1. cbn [length]. split; lia.
Qed.

(** X14.  The refresh timer never holds the status record back.
    [next_stat_time] starts at 0 and is only ever set to a clock reading
    already taken, so with a clock that does not run backwards the test
    [now >= next_stat_time] of line 193 is true on every tick: [run()]
    publishes what it would publish with the test replaced by [True], that
    is the status record of every device on every iteration, seven messages
    per device and iteration. *)
Theorem status_published_every_tick cfg pcs s lo :
  ls_next_stat_time s <= lo ->
  clocks_ok lo pcs ->
  option_map (fun r => (ls_fleet (fst r), snd r)) (iterations cfg pcs s)
  = run_loop cfg
      (map (fun pc => (pc_ts pc, fun dev => (true, pc_draws pc dev))) pcs)
      (ls_fleet s) /\
  (forall s2 out,
     iterations cfg pcs s = Some (s2, out) ->
     length (ls_fleet s2) = length (ls_fleet s) /\
     length out = (7 * length (ls_fleet s) * length pcs)%nat).
Proof.
  intros Hnext Hok.
  pose proof (iterations_refresh cfg pcs s lo Hnext Hok) as Href.
  split; [exact Href|].
  intros s2 out Hrun. rewrite Hrun in Href. cbn [option_map fst snd] in Href.
  symmetry in Href.
  assert (Hmap : map (fun pc => (pc_ts pc, fun dev => (true, pc_draws pc dev))) pcs
                 = map (fun p => (fst p, fun dev => (true, snd p dev)))
                     (map (fun pc => (pc_ts pc, pc_draws pc)) pcs)).
  { rewrite map_map. reflexivity. }
  rewrite Hmap in Href.
  destruct (run_loop_refresh_length _ _ _ _ _ Href) as [Hl Ho].
  rewrite length_map in Ho. split; assumption.
Qed.

Lemma status_published_every_tick_witness :
  (ls_next_stat_time (mkLoopState [st_boot] 0) <= 0 /\
   clocks_ok 0 [clock_at 1000; clock_at 1030]) /\
  exists s2 out,
    iterations default_config [clock_at 1000; clock_at 1030]
      (mkLoopState [st_boot] 0) = Some (s2, out) /\
    ls_next_stat_time s2 == 1002 /\
    length out = (7 * 1 * 2)%nat.
Proof.
  assert (H0 : ls_next_stat_time (mkLoopState [st_boot] 0) <= 0) by (cbn; lra).
  assert (Hok : clocks_ok 0 [clock_at 1000; clock_at 1030]).
  { unfold clocks_ok, clock_ok, clock_at.
    cbn [pc_t0 pc_now pc_test pc_set pc_end].
    repeat split; intros; lra. }
  split; [split; assumption|].
  eassert (H : iterations default_config [clock_at 1000; clock_at 1030]
                 (mkLoopState [st_boot] 0) = Some (_, _))
    by (vm_compute; reflexivity).
  do 2 eexists. split; [exact H|]. split; [reflexivity|].
  exact (proj2 (proj2 (status_published_every_tick _ _ _ _ H0 Hok) _ _ H)).
Defined.

(** X15.  The pace of the loop.  The loop sleeps exactly when the iteration
    took less than [period_s], and then for the remainder, so that iteration
    and sleep together last [period_s]; it never sleeps a zero or negative
    time, and an iteration that took [period_s] or more is followed by the
    next one at once. *)
Theorem sleep_fills_period cfg (t0 t_end : Q) :
  (t_end - t0 < period_s cfg ->
     sleep_of cfg t0 t_end = Some (period_s cfg - (t_end - t0))) /\
  (period_s cfg <= t_end - t0 -> sleep_of cfg t0 t_end = None) /\
  (forall s, sleep_of cfg t0 t_end = Some s ->
             0 < s /\ (t_end - t0) + s == period_s cfg).
Proof.
  unfold sleep_of.
  assert (Hpos : t_end - t0 < period_s cfg ->
                 Py.max 0 (period_s cfg - (t_end - t0))
                 = period_s cfg - (t_end - t0))
    by (intros; apply py_max_0_pos; lra).
  assert (Hneg : period_s cfg <= t_end - t0 ->
                 Py.max 0 (period_s cfg - (t_end - t0)) = 0)
    by (intros; apply py_max_0_nonpos; lra).
  split; [|split].
  - intros Hlt. rewrite (Hpos Hlt).
    py_case (Py.lt 0 (period_s cfg - (t_end - t0))); [reflexivity | lra].
  - intros Hge. rewrite (Hneg Hge). reflexivity.
  - intros s Hs. destruct (Qlt_le_dec (t_end - t0) (period_s cfg)) as [Hlt|Hge].
    + rewrite (Hpos Hlt) in Hs.
      py_case (Py.lt 0 (period_s cfg - (t_end - t0))); [|discriminate].
      injection Hs as <-. split; lra.
    + rewrite (Hneg Hge) in Hs. discriminate.
Qed.

Lemma sleep_fills_period_witness :
  1003 - 1000 < period_s default_config /\
  sleep_of default_config 1000 1003 = Some (period_s default_config - (1003 - 1000)).
Proof.
  assert (H : 1003 - 1000 < period_s default_config) by (cbn; lra).
  split; [exact H|].
  exact (proj1 (sleep_fills_period default_config 1000 1003) H).
Defined.

(* ------------------------------------------------------------------ *)
(** ** [Config.devices] *)

Lemma split_no_sep (sep : ascii) (s : string) :
  Forall (fun piece => PyStr.contains sep piece = false) (PyStr.split sep s).
Proof.
  induction s as [|c rest IH]; cbn [PyStr.split].
  - repeat constructor.
  - destruct (Ascii.eqb c sep) eqn:Hc.
    + constructor; [reflexivity | exact IH].
    + destruct (PyStr.split sep rest) as [|piece pieces].
      * repeat constructor. cbn. rewrite Hc. reflexivity.
      * inversion IH as [|? ? Hp Hps]; subst.
        constructor; [|exact Hps]. cbn. rewrite Hc, Hp. reflexivity.
Qed.

Lemma split_whole (sep : ascii) (s : string) :
  PyStr.contains sep s = false -> PyStr.split sep s = [s].
Proof.
  induction s as [|c rest IH]; cbn; [reflexivity|].
  intros H. apply orb_false_iff in H. destruct H as [Hc Hr].
  rewrite Hc, (IH Hr). reflexivity.
Qed.

Lemma split_first (sep : ascii) (x rest : string) :
  PyStr.contains sep x = false ->
  PyStr.split sep (x ++ String sep rest) = x :: PyStr.split sep rest.
Proof.
  induction x as [|c x IH]; cbn [append PyStr.split PyStr.contains].
  - intros _. rewrite Ascii.eqb_refl. reflexivity.
  - intros H. apply orb_false_iff in H. destruct H as [Hc Hx].
    rewrite Hc, (IH Hx). reflexivity.
Qed.

Lemma split_concat (sep : ascii) (names : list string) :
  names <> [] ->
  Forall (fun d => PyStr.contains sep d = false) names ->
  PyStr.split sep (String.concat (String sep EmptyString) names) = names.
Proof.
  induction names as [|d rest IH]; [congruence|].
  intros _ Hall. inversion Hall as [|? ? Hd Hrest]; subst.
  destruct rest as [|d2 rest].
  - cbn. apply split_whole. exact Hd.
  - change (String.concat (String sep EmptyString) (d :: d2 :: rest))
      with (d ++ String sep (String.concat (String sep EmptyString) (d2 :: rest)))%string.
    rewrite split_first by exact Hd.
    rewrite IH; [reflexivity | discriminate | exact Hrest].
Qed.

Lemma lstrip_contains (c : ascii) (s : string) :
  PyStr.contains c s = false -> PyStr.contains c (PyStr.lstrip s) = false.
Proof.
  induction s as [|x rest IH]; cbn [PyStr.lstrip]; [auto|].
  intros H. destruct (PyStr.is_space x); [|exact H].
  apply IH. cbn in H. apply orb_false_iff in H. tauto.
Qed.

Lemma rstrip_contains (c : ascii) (s : string) :
  PyStr.contains c s = false -> PyStr.contains c (PyStr.rstrip s) = false.
Proof.
  induction s as [|x rest IH]; cbn [PyStr.rstrip]; [auto|].
  intros H. cbn in H. apply orb_false_iff in H. destruct H as [Hx Hr].
  specialize (IH Hr).
  destruct (PyStr.rstrip rest) as [|y kept].
  - destruct (PyStr.is_space x); cbn; [reflexivity|]. rewrite Hx. reflexivity.
  - cbn [PyStr.contains] in *. rewrite Hx, IH. reflexivity.
Qed.

Lemma rstrip_idempotent (s : string) :
  PyStr.rstrip (PyStr.rstrip s) = PyStr.rstrip s.
Proof.
  induction s as [|x rest IH]; cbn [PyStr.rstrip]; [reflexivity|].
  destruct (PyStr.rstrip rest) as [|y kept] eqn:Hr.
  - destruct (PyStr.is_space x) eqn:Hx; cbn [PyStr.rstrip]; [reflexivity|].
    rewrite Hx. reflexivity.
  - cbn [PyStr.rstrip] in *. rewrite IH. reflexivity.
Qed.

Lemma lstrip_starts_clean (s : string) : starts_clean (PyStr.lstrip s).
Proof.
  induction s as [|x rest IH]; cbn [PyStr.lstrip]; [exact I|].
  destruct (PyStr.is_space x) eqn:Hx; [exact IH | exact Hx].
Qed.

Lemma rstrip_starts_clean (s : string) :
  starts_clean s -> starts_clean (PyStr.rstrip s).
Proof.
  destruct s as [|x rest]; cbn [PyStr.rstrip starts_clean]; [auto|].
  intros Hx. destruct (PyStr.rstrip rest); [rewrite Hx|]; exact Hx.
Qed.

Lemma lstrip_clean (s : string) : starts_clean s -> PyStr.lstrip s = s.
Proof.
  destruct s as [|x rest]; cbn; [reflexivity|]. intros ->. reflexivity.
Qed.

Lemma strip_idempotent (s : string) :
  PyStr.strip (PyStr.strip s) = PyStr.strip s.
Proof.
  unfold PyStr.strip.
  rewrite (lstrip_clean (PyStr.rstrip (PyStr.lstrip s))).
  - apply rstrip_idempotent.
  - apply rstrip_starts_clean, lstrip_starts_clean.
Qed.

Lemma truthy_nonempty (s : string) :
  PyStr.truthy s = true <-> s <> EmptyString.
Proof.
  destruct s; cbn; split; intros H; try reflexivity; congruence.
Qed.

(** X16.  The names [Config.devices] returns are clean: none is empty, none
    has leading or trailing whitespace, none contains a comma; and each is
    the stripped form of a comma-separated piece of [DEVICES].  In
    particular an empty [DEVICES], or one made of commas and blanks only,
    gives no device. *)
Theorem devices_are_clean (devices_csv : string) :
  Forall (fun d =>
            clean_name d /\
            exists piece,
              In piece (PyStr.split "," devices_csv) /\ d = PyStr.strip piece)
         (devices devices_csv) /\
  ((forall piece, In piece (PyStr.split "," devices_csv) ->
                  PyStr.strip piece = EmptyString) ->
   devices devices_csv = []) /\
  devices EmptyString = [].
Proof.
  unfold devices. split; [|split; [|reflexivity]].
  - apply Forall_forall. intros d Hd.
    apply in_map_iff in Hd. destruct Hd as (piece & <- & Hin).
    apply filter_In in Hin. destruct Hin as [Hin Htruthy].
    split; [|exists piece; auto].
    split; [apply truthy_nonempty; exact Htruthy|].
    split; [apply strip_idempotent|].
    unfold PyStr.strip. apply rstrip_contains, lstrip_contains.
    pose proof (split_no_sep "," devices_csv) as Hall.
    rewrite Forall_forall in Hall. apply Hall. exact Hin.
  - intros Hblank.
    induction (PyStr.split "," devices_csv) as [|piece pieces IH];
      [reflexivity|].
    cbn [filter]. rewrite (Hblank piece) by (left; reflexivity).
    cbn [PyStr.truthy]. apply IH. intros p Hp. apply Hblank. right. exact Hp.
Qed.

(** X17.  [Config.devices] reads back a list of clean names: joining clean
    names with commas and parsing the result gives the same names, in the
    same order.  The default ["dev-001"] is the one device [dev-001]. *)
Theorem devices_of_joined (names : list string) :
  Forall clean_name names ->
  devices (String.concat "," names) = names.
Proof.
  intros Hall. unfold devices.
  assert (Hkeep : forall l, Forall clean_name l ->
            map PyStr.strip
              (filter (fun d => PyStr.truthy (PyStr.strip d)) l) = l).
  { induction l as [|d l IH]; [reflexivity|].
    intros Hl. inversion Hl as [|? ? (Hne & Hs & _) Hl']; subst.
    cbn [filter]. rewrite Hs.
    rewrite (proj2 (truthy_nonempty d) Hne). cbn [map].
    rewrite Hs, (IH Hl'). reflexivity. }
  destruct names as [|d rest]; [reflexivity|].
  rewrite split_concat; [apply Hkeep; exact Hall | discriminate |].
  apply Forall_impl with (2 := Hall). intros x (_ & _ & Hx). exact Hx.
Qed.

Lemma devices_of_joined_witness :
  Forall clean_name ["dev-001"; "dev-002"]%string /\
  devices "dev-001,dev-002" = ["dev-001"; "dev-002"]%string.
Proof.
  assert (H : Forall clean_name ["dev-001"; "dev-002"]%string).
  { repeat constructor; try discriminate. }
  split; [exact H|].
  exact (devices_of_joined _ H).
Defined.

(* ------------------------------------------------------------------ *)
(** ** The dictionary [states] *)

Lemma dict_set_keys (k : string) (v : DeviceState) (d : States) :
  map fst (dict_set k v d) =
    if existsb (String.eqb k) (map fst d) then map fst d
    else map fst d ++ [k].
Proof.
  induction d as [|[k1 v1] rest IH]; cbn [dict_set map existsb fst app];
    [reflexivity|].
  rewrite (String.eqb_sym k k1).
  destruct (String.eqb k1 k); cbn [orb map fst]; [reflexivity|].
  rewrite IH. destruct (existsb (String.eqb k) (map fst rest)); reflexivity.
Qed.

Lemma dict_set_in (k : string) (v : DeviceState) (d : States) k1 v1 :
  In (k1, v1) (dict_set k v d) -> (k1 = k /\ v1 = v) \/ In (k1, v1) d.
Proof.
  induction d as [|[k2 v2] rest IH]; cbn [dict_set In].
  - intros [H|[]]. injection H as <- <-. auto.
  - destruct (String.eqb_spec k2 k) as [->|Hne]; cbn [In].
    + intros [H|H]; [injection H as <- <-; auto | auto].
    + intros [H|H]; [auto|]. destruct (IH H); auto.
Qed.

Lemma existsb_eqb_in (k : string) (l : list string) :
  existsb (String.eqb k) l = true <-> In k l.
Proof.
  rewrite existsb_exists. split.
  - intros (x & Hx & He). apply String.eqb_eq in He. subst. exact Hx.
  - intros H. exists k. split; [exact H | apply String.eqb_refl].
Qed.

Lemma dict_set_nodup (k : string) (v : DeviceState) (d : States) :
  NoDup (map fst d) -> NoDup (map fst (dict_set k v d)).
Proof.
  intros Hd. rewrite dict_set_keys.
  destruct (existsb (String.eqb k) (map fst d)) eqn:He; [exact Hd|].
  apply NoDup_app; [exact Hd | repeat constructor; intros [] |].
  intros x Hx [<-|[]].
  apply existsb_eqb_in in Hx. congruence.
Qed.

(** The comprehension, from a dictionary already holding [acc]. *)
Lemma build_from_acc cfg (devs : list (string * Q)) : forall acc : States,
  NoDup (map fst acc) ->
  (forall k v, In (k, v) acc -> device_id v = k) ->
  let d := fold_left
             (fun d du => dict_set (fst du) (init_state (fst du) cfg (snd du)) d)
             devs acc in
  NoDup (map fst d) /\
  (forall k v, In (k, v) d -> device_id v = k) /\
  (forall k, In k (map fst d) <-> In k (map fst acc) \/ In k (map fst devs)) /\
  (forall k v, In (k, v) d ->
     In (k, v) acc \/ exists u, In (k, u) devs /\ v = init_state k cfg u).
Proof.
  induction devs as [|[k0 u0] rest IH]; intros acc Hnd Hid; cbn [fold_left fst snd].
  - split; [exact Hnd|]. split; [exact Hid|].
    split; [intros k; cbn; tauto | auto].
  - specialize (IH (dict_set k0 (init_state k0 cfg u0) acc)
                  (dict_set_nodup _ _ _ Hnd)).
    destruct IH as (H1 & H2 & H3 & H4).
    { intros k v Hin. apply dict_set_in in Hin.
      destruct Hin as [[-> ->]|Hin]; [reflexivity | apply Hid; exact Hin]. }
    split; [exact H1|]. split; [exact H2|]. split.
    + intros k. rewrite H3, dict_set_keys. cbn [map fst In].
      destruct (existsb (String.eqb k0) (map fst acc)) eqn:He.
      * apply existsb_eqb_in in He. split; [tauto|].
        intros [H|[<-|H]]; auto.
      * rewrite in_app_iff. cbn [In]. tauto.
    + intros k v Hin. destruct (H4 k v Hin) as [Hacc|(u & Hu & ->)].
      * apply dict_set_in in Hacc. destruct Hacc as [[-> ->]|Hacc]; [|auto].
        right. exists u0. split; [left; reflexivity | reflexivity].
      * right. exists u. split; [right; exact Hu | reflexivity].
Qed.

Lemma build_distinct cfg (devs : list (string * Q)) : forall acc : States,
  NoDup (map fst acc ++ map fst devs) ->
  fold_left
    (fun d du => dict_set (fst du) (init_state (fst du) cfg (snd du)) d)
    devs acc
  = acc ++ map (fun du => (fst du, init_state (fst du) cfg (snd du))) devs.
Proof.
  induction devs as [|[k0 u0] rest IH]; intros acc Hnd; cbn [fold_left map fst snd].
  - rewrite app_nil_r. reflexivity.
  - assert (Hset : dict_set k0 (init_state k0 cfg u0) acc
                   = acc ++ [(k0, init_state k0 cfg u0)]).
    { assert (Hk : ~ In k0 (map fst acc)).
      { intros Hin. apply NoDup_remove_2 in Hnd. apply Hnd.
        apply in_or_app. left. exact Hin. }
      clear - Hk. induction acc as [|[k1 v1] acc IHa]; cbn; [reflexivity|].
      destruct (String.eqb_spec k1 k0) as [->|Hne].
      - exfalso. apply Hk. left. reflexivity.
      - rewrite IHa; [reflexivity|]. intros Hin. apply Hk. right. exact Hin. }
    rewrite Hset, IH.
    + rewrite <- app_assoc. reflexivity.
    + rewrite map_app, <- app_assoc. exact Hnd.
Qed.

(** X18.  The dictionary of devices.  Whatever the list of names: the keys
    of [states] are distinct and are exactly the names given; every state
    sits under its own name ([st.device_id] is its key, so the topics of a
    device carry its key) and is a freshly built [DeviceState].  When the
    names are distinct, [states] lists one fresh state per name, in the
    order of the names. *)
Theorem states_dictionary cfg (devs : list (string * Q)) :
  NoDup (map fst (build_states cfg devs)) /\
  (forall k, In k (map fst (build_states cfg devs)) <-> In k (map fst devs)) /\
  (forall k v, In (k, v) (build_states cfg devs) ->
     device_id v = k /\
     exists u, In (k, u) devs /\ v = init_state k cfg u) /\
  (NoDup (map fst devs) ->
     map fst (build_states cfg devs) = map fst devs /\
     map snd (build_states cfg devs) = init_fleet cfg devs).
Proof.
  unfold build_states.
  destruct (build_from_acc cfg devs [] (NoDup_nil _))
    as (H1 & H2 & H3 & H4); [intros k v []|].
  cbn zeta in *.
  split; [exact H1|]. split; [|split].
  - intros k. rewrite H3. cbn. tauto.
  - intros k v Hin. split; [apply H2; exact Hin|].
    destruct (H4 k v Hin) as [[]|Hex]. exact Hex.
  - intros Hnd. rewrite (build_distinct cfg devs []) by exact Hnd.
    cbn [app]. rewrite !map_map. cbn [fst snd]. split; reflexivity.
Qed.

Lemma states_dictionary_witness :
  NoDup (map fst [("dev-001", 0.5); ("dev-002", 0.25)]%string) /\
  map snd (build_states default_config [("dev-001", 0.5); ("dev-002", 0.25)]%string)
  = init_fleet default_config [("dev-001", 0.5); ("dev-002", 0.25)]%string.
Proof.
  assert (H : NoDup (map fst [("dev-001", 0.5); ("dev-002", 0.25)]%string)).
  { cbn. repeat constructor; cbn; intuition discriminate. }
  split; [exact H|].
  exact (proj2 (proj2 (proj2 (proj2
           (states_dictionary default_config
              [("dev-001", 0.5); ("dev-002", 0.25)]%string))) H)).
Defined.

Lemma fleet_invariants_witness :
  (Forall (fun du => unit_draw (snd du)) [("dev-001"%string, 0.5)] /\
   Forall (fun p => forall dev, unit_draws (snd (snd p dev)))
     [(ts0, fun _ : string => (false, draws_ok))]) /\
  exists fleet out,
    run_loop default_config [(ts0, fun _ => (false, draws_ok))]
      (init_fleet default_config [("dev-001"%string, 0.5)]) = Some (fleet, out) /\
    map device_id fleet = ["dev-001"%string].
Proof.
  assert (H1 : Forall (fun du => unit_draw (snd du)) [("dev-001"%string, 0.5)]).
  { repeat constructor; cbn; lra. }
  assert (H2 : Forall (fun p => forall dev, unit_draws (snd (snd p dev)))
                 [(ts0, fun _ : string => (false, draws_ok))]).
  { repeat constructor; cbn; lra. }
  split; [split; assumption|].
  eassert (H : run_loop default_config [(ts0, fun _ => (false, draws_ok))]
                 (init_fleet default_config [("dev-001"%string, 0.5)])
               = Some (_, _)) by (vm_compute; reflexivity).
  do 2 eexists. split; [exact H|].
  exact (proj1 (fleet_invariants _ _ _ _ _ H1 H2 H)).
Defined.
